(** * Sentry bundler plugins: release lifecycle steps and the esbuild plugins

    A shallow embedding of the TypeScript sources

    - the release lifecycle facade ([createNewRelease], [cleanArtifacts],
      [uploadSourceMaps], [setCommits], [finalizeRelease], [addDeploy]), and
    - the esbuild plugin ([esbuildReleaseInjectionPlugin],
      [esbuildDebugIdInjectionPlugin], [esbuildDebugIdUploadPlugin]), and
    - the bundles of the integration tests ([createCjsBundles]).

    Asynchronous functions are modelled in a state-and-exception monad: an
    awaited promise that rejects is a [Throw], and the side effects made before
    the rejection stay in the state, as they do in JavaScript. *)

From Stdlib Require Import String Ascii List Bool Arith ZArith Lia.
From Stdlib Require Import DecimalString DecimalNat.
Import ListNotations.

Set Implicit Arguments.

(** ** JavaScript values shared by both sources *)

(** A thrown value; [Error msg] is [new Error(msg)]. *)
Inductive JsError : Type :=
| Error (message : string).

(** ** Effects: state passing with exceptions *)

Inductive Completion (A : Type) : Type :=
| Normal (a : A)
| Throw (e : JsError).

Arguments Normal {A} a.
Arguments Throw {A} e.

Definition Eff (S A : Type) : Type := S -> Completion A * S.

Section EffOps.
Context {S : Type}.

Definition ret {A} (a : A) : Eff S A := fun s => (Normal a, s).

Definition throw {A} (e : JsError) : Eff S A := fun s => (Throw e, s).

Definition bind {A B} (m : Eff S A) (k : A -> Eff S B) : Eff S B :=
  fun s =>
    match m s with
    | (Normal a, s') => k a s'
    | (Throw e, s') => (Throw e, s')
    end.

(** [try { body } catch (e) { handler e }] *)
Definition try_catch {A} (body : Eff S A) (handler : JsError -> Eff S A) : Eff S A :=
  fun s =>
    match body s with
    | (Normal a, s') => (Normal a, s')
    | (Throw e, s') => handler e s'
    end.

(** [try { body } finally { fin }]: [fin] runs on every completion of
    [body]; the completion of [body] is kept unless [fin] itself throws. *)
Definition try_finally {A} (body : Eff S A) (fin : Eff S unit) : Eff S A :=
  fun s =>
    match body s with
    | (c, s') =>
        match fin s' with
        | (Normal _, s'') => (c, s'')
        | (Throw e, s'') => (Throw e, s'')
        end
    end.

(** [try { body } catch (e) { handler e } finally { fin }] *)
Definition try_catch_finally {A} (body : Eff S A) (handler : JsError -> Eff S A)
    (fin : Eff S unit) : Eff S A :=
  try_finally (try_catch body handler) fin.

Definition modify (f : S -> S) : Eff S unit := fun s => (Normal tt, f s).
End EffOps.

Declare Scope eff_scope.
Delimit Scope eff_scope with eff.
Notation "x <- m ;; k" := (bind m (fun x => k))
  (at level 61, m at next level, right associativity) : eff_scope.
Notation "m ;; k" := (bind m (fun _ => k))
  (at level 61, right associativity) : eff_scope.

(** ** Small string helpers *)

(** The double quote and the line feed, for generated source text. *)
Definition dquote : string := String "034"%char EmptyString.
Definition newline : string := String "010"%char EmptyString.

Definition quoted (s : string) : string := (dquote ++ s ++ dquote)%string.

(** [includes needle s]: [needle] occurs in [s] (what an unanchored regular
    expression made of literal characters tests). *)
Fixpoint includes (needle s : string) : bool :=
  String.prefix needle s ||
  match s with
  | EmptyString => false
  | String _ rest => includes needle rest
  end.

(** * The release lifecycle facade *)

Module ReleaseLifecycle.

Local Open Scope string_scope.
Local Open Scope list_scope.
Local Open Scope eff_scope.

(** *** Options ([NormalizedOptions], as far as the steps read it; the
    fields carry the prefix [options_], the steps keep the source's names) *)

Record SetCommitsOptions : Type := {
  auto : option bool;
  repo : option string;
  commit : option string;
  previousCommit : option string;
  ignoreMissing : option bool;
  ignoreEmpty : option bool
}.

(** [started], [finished] are [number | string] for the service. *)
Inductive NumberOrString : Type :=
| JsNumber (n : nat)
| JsString (s : string).

Record DeployOptions : Type := {
  env : string;
  started : option NumberOrString;
  finished : option NumberOrString;
  time : option nat;
  name : option string;
  url : option string
}.

Record NormalizedOptions : Type := {
  options_cleanArtifacts : bool;
  options_uploadSourceMaps : bool;
  options_include : list string;
  options_dist : option string;
  options_setCommits : option SetCommitsOptions;
  options_finalize : bool;
  options_deploy : option DeployOptions
}.

(** *** The external service ([ctx.cli.releases]) *)

Record UploadSourceMapsArgs : Type := {
  upload_include : list string;
  upload_dist : option string
}.

Inductive CliRequest : Type :=
| ReleasesNew (releaseName : string)
| ReleasesExecute (args : list string) (live : bool)
| ReleasesUploadSourceMaps (releaseName : string) (o : UploadSourceMapsArgs)
| ReleasesSetCommits (releaseName : string) (o : SetCommitsOptions)
| ReleasesFinalize (releaseName : string)
| ReleasesNewDeploy (releaseName : string) (o : DeployOptions).

(** *** Observable effects *)

Record Span : Type := { span_op : string }.

Record Breadcrumb : Type := { level : string; message : string }.

(** [SpanStart op span]: the span helper was called for [op] and returned
    [span]. [CliCall rq rejection]: the service was sent [rq] and resolved
    ([None]) or rejected with an error. *)
Inductive Event : Type :=
| SpanStart (op : string) (span : option Span)
| SpanFinish (span : Span)
| CliCall (request : CliRequest) (rejection : option JsError)
| CaptureException (e : JsError)
| AddBreadcrumb (b : Breadcrumb)
| LoggerInfo (msg : string)
| LoggerDebug (msg : string).

Definition Trace : Type := list Event.

(** [BuildContext]: the service answers each request by resolving ([None])
    or rejecting with an error; [telemetry] is what the span helper yields
    for an operation name. *)
Record BuildContext : Type := {
  cli : CliRequest -> option JsError;
  telemetry : string -> option Span
}.

Definition emit (e : Event) : Eff Trace unit := modify (fun tr => tr ++ [e]).

(** [await ctx.cli.releases.<method>(...)] *)
Definition cli_releases (ctx : BuildContext) (rq : CliRequest) : Eff Trace unit :=
  emit (CliCall rq (cli ctx rq)) ;;
  match cli ctx rq with
  | None => ret tt
  | Some e => throw e
  end.

Definition hub_captureException (ctx : BuildContext) (e : JsError) : Eff Trace unit :=
  emit (CaptureException e).

Definition hub_addBreadcrumb (ctx : BuildContext) (b : Breadcrumb) : Eff Trace unit :=
  emit (AddBreadcrumb b).

Definition logger_info (ctx : BuildContext) (msg : string) : Eff Trace unit :=
  emit (LoggerInfo msg).

Definition logger_debug (ctx : BuildContext) (msg : string) : Eff Trace unit :=
  emit (LoggerDebug msg).

(** Modelled from the spec: the Telemetry Span Helper [addSpanToTransaction]
    of [./telemetry], which is not among the sources. It starts a span for
    the operation on the build's transaction and returns it, or returns
    [undefined] when telemetry is disabled. *)
Definition addSpanToTransaction (ctx : BuildContext) (op : string)
    : Eff Trace (option Span) :=
  emit (SpanStart op (telemetry ctx op)) ;;
  ret (telemetry ctx op).

(** [span?.finish()] *)
Definition span_finish (span : option Span) : Eff Trace unit :=
  match span with
  | Some sp => emit (SpanFinish sp)
  | None => ret tt
  end.

(** *** The six steps *)

Definition createNewRelease (options : NormalizedOptions) (ctx : BuildContext)
    (releaseName : string) : Eff Trace unit :=
  span <- addSpanToTransaction ctx "function.plugin.create_release" ;;
  try_catch_finally
    (cli_releases ctx (ReleasesNew releaseName))
    (fun e =>
       hub_captureException ctx (Error "CLI Error: Creating new release failed") ;;
       throw e)
    (span_finish span) ;;
  hub_addBreadcrumb ctx {| level := "info"; message := "Successfully created release." |} ;;
  logger_info ctx "Successfully created release.".

Definition cleanArtifacts (options : NormalizedOptions) (ctx : BuildContext)
    (releaseName : string) : Eff Trace unit :=
  if negb (options_cleanArtifacts options) then
    logger_debug ctx "Skipping artifact cleanup."
  else
    span <- addSpanToTransaction ctx "function.plugin.clean_artifacts" ;;
    try_catch_finally
      (cli_releases ctx
         (ReleasesExecute ["releases"; "files"; releaseName; "delete"; "--all"] true))
      (fun e =>
         hub_captureException ctx (Error "CLI Error: Deleting release files failed") ;;
         throw e)
      (span_finish span) ;;
    hub_addBreadcrumb ctx
      {| level := "info"; message := "Successfully cleaned previous artifacts." |} ;;
    logger_info ctx "Successfully cleaned previous artifacts.".

Definition uploadSourceMaps (options : NormalizedOptions) (ctx : BuildContext)
    (releaseName : string) : Eff Trace unit :=
  if negb (options_uploadSourceMaps options) then
    logger_debug ctx "Skipping source maps upload."
  else
    span <- addSpanToTransaction ctx "function.plugin.upload_sourcemaps" ;;
    logger_info ctx "Uploading Sourcemaps." ;;
    try_catch_finally
      (cli_releases ctx
         (ReleasesUploadSourceMaps releaseName
            {| upload_include := options_include options;
               upload_dist := options_dist options |}))
      (fun e =>
         hub_captureException ctx (Error "CLI Error: Uploading source maps failed") ;;
         throw e)
      (span_finish span) ;;
    hub_addBreadcrumb ctx
      {| level := "info"; message := "Successfully uploaded source maps." |} ;;
    logger_info ctx "Successfully uploaded source maps.".

Definition setCommits (options : NormalizedOptions) (ctx : BuildContext)
    (releaseName : string) : Eff Trace unit :=
  match options_setCommits options with
  | None => logger_debug ctx "Skipping setting commits to release."
  | Some sc =>
      span <- addSpanToTransaction ctx "function.plugin.set_commits" ;;
      try_catch_finally
        (cli_releases ctx
           (ReleasesSetCommits releaseName
              {| commit := commit sc;
                 previousCommit := previousCommit sc;
                 repo := repo sc;
                 auto := auto sc;
                 ignoreMissing := ignoreMissing sc;
                 ignoreEmpty := ignoreEmpty sc |}))
        (fun e =>
           hub_captureException ctx (Error "CLI Error: Setting commits failed") ;;
           throw e)
        (span_finish span) ;;
      logger_info ctx "Successfully set commits."
  end.

Definition finalizeRelease (options : NormalizedOptions) (ctx : BuildContext)
    (releaseName : string) : Eff Trace unit :=
  if negb (options_finalize options) then
    hub_addBreadcrumb ctx
      {| level := "info"; message := "Skipping release finalization." |} ;;
    logger_debug ctx "Skipping release finalization."
  else
    span <- addSpanToTransaction ctx "function.plugin.finalize_release" ;;
    try_catch_finally
      (cli_releases ctx (ReleasesFinalize releaseName))
      (fun e =>
         hub_captureException ctx (Error "CLI Error: Finalizing release failed") ;;
         throw e)
      (span_finish span) ;;
    hub_addBreadcrumb ctx
      {| level := "info"; message := "Successfully finalized release." |} ;;
    logger_info ctx "Successfully finalized release.".

Definition addDeploy (options : NormalizedOptions) (ctx : BuildContext)
    (releaseName : string) : Eff Trace unit :=
  match options_deploy options with
  | None =>
      hub_addBreadcrumb ctx
        {| level := "info"; message := "Skipping adding deploy info to release." |} ;;
      logger_debug ctx "Skipping adding deploy info to release."
  | Some d =>
      span <- addSpanToTransaction ctx "function.plugin.deploy" ;;
      try_catch_finally
        (cli_releases ctx
           (ReleasesNewDeploy releaseName
              {| env := env d;
                 started := started d;
                 finished := finished d;
                 time := time d;
                 name := name d;
                 url := url d |}))
        (fun e =>
           hub_captureException ctx (Error "CLI Error: Adding deploy info failed") ;;
           throw e)
        (span_finish span) ;;
      hub_addBreadcrumb ctx {| level := "info"; message := "Successfully added deploy." |} ;;
      logger_info ctx "Successfully added deploy."
  end.

(** *** The steps as one family *)

Inductive Step : Type :=
| Create | Clean | Upload | Commits | Finalize | Deploy.

Definition run_step (s : Step) : NormalizedOptions -> BuildContext -> string -> Eff Trace unit :=
  match s with
  | Create => createNewRelease
  | Clean => cleanArtifacts
  | Upload => uploadSourceMaps
  | Commits => setCommits
  | Finalize => finalizeRelease
  | Deploy => addDeploy
  end.

(** The guard at the head of each step: the flag is false, or the option
    object is absent. [createNewRelease] has no guard. *)
Definition skipped (s : Step) (options : NormalizedOptions) : bool :=
  match s with
  | Create => false
  | Clean => negb (options_cleanArtifacts options)
  | Upload => negb (options_uploadSourceMaps options)
  | Commits => match options_setCommits options with None => true | Some _ => false end
  | Finalize => negb (options_finalize options)
  | Deploy => match options_deploy options with None => true | Some _ => false end
  end.

(** The operation name each step gives its span. *)
Definition span_name (s : Step) : string :=
  match s with
  | Create => "function.plugin.create_release"
  | Clean => "function.plugin.clean_artifacts"
  | Upload => "function.plugin.upload_sourcemaps"
  | Commits => "function.plugin.set_commits"
  | Finalize => "function.plugin.finalize_release"
  | Deploy => "function.plugin.deploy"
  end.

(** What failed, in the words of each step's captured exception. *)
Definition failure_description (s : Step) : string :=
  match s with
  | Create => "Creating new release"
  | Clean => "Deleting release files"
  | Upload => "Uploading source maps"
  | Commits => "Setting commits"
  | Finalize => "Finalizing release"
  | Deploy => "Adding deploy info"
  end.

Definition success_message (s : Step) : string :=
  match s with
  | Create => "Successfully created release."
  | Clean => "Successfully cleaned previous artifacts."
  | Upload => "Successfully uploaded source maps."
  | Commits => "Successfully set commits."
  | Finalize => "Successfully finalized release."
  | Deploy => "Successfully added deploy."
  end.

Definition skip_message (s : Step) : string :=
  match s with
  | Create => EmptyString
  | Clean => "Skipping artifact cleanup."
  | Upload => "Skipping source maps upload."
  | Commits => "Skipping setting commits to release."
  | Finalize => "Skipping release finalization."
  | Deploy => "Skipping adding deploy info to release."
  end.

(** The events a step adds, and how it completes, from an empty trace. *)
Definition step_events (s : Step) (options : NormalizedOptions) (ctx : BuildContext)
    (releaseName : string) : Trace :=
  snd (run_step s options ctx releaseName []).

Definition step_completion (s : Step) (options : NormalizedOptions) (ctx : BuildContext)
    (releaseName : string) : Completion unit :=
  fst (run_step s options ctx releaseName []).

(** *** Views of a trace *)

Definition cli_calls (tr : Trace) : list CliRequest :=
  flat_map (fun ev => match ev with CliCall rq _ => [rq] | _ => [] end) tr.

Definition captured (tr : Trace) : list JsError :=
  flat_map (fun ev => match ev with CaptureException e => [e] | _ => [] end) tr.

Definition breadcrumbs (tr : Trace) : list Breadcrumb :=
  flat_map (fun ev => match ev with AddBreadcrumb b => [b] | _ => [] end) tr.

Definition info_logs (tr : Trace) : list string :=
  flat_map (fun ev => match ev with LoggerInfo m => [m] | _ => [] end) tr.

(** The spans and the external calls of a trace, in order. *)
Definition is_span_or_call (ev : Event) : bool :=
  match ev with
  | SpanStart _ _ | SpanFinish _ | CliCall _ _ => true
  | _ => false
  end.

Definition span_view (tr : Trace) : Trace := filter is_span_or_call tr.

Definition finish_events (span : option Span) : Trace :=
  match span with
  | Some sp => [SpanFinish sp]
  | None => []
  end.

(** *** The step table of the design

    A second description of the six steps, row by row as the design's table
    gives them; the steps of the source are compared with it below. *)

(** The external call of a step that runs; [None] when the step is skipped. *)
Definition step_request (s : Step) (options : NormalizedOptions) (releaseName : string)
    : option CliRequest :=
  match s with
  | Create => Some (ReleasesNew releaseName)
  | Clean =>
      if options_cleanArtifacts options
      then Some (ReleasesExecute ["releases"; "files"; releaseName; "delete"; "--all"] true)
      else None
  | Upload =>
      if options_uploadSourceMaps options
      then Some (ReleasesUploadSourceMaps releaseName
                   {| upload_include := options_include options;
                      upload_dist := options_dist options |})
      else None
  | Commits =>
      match options_setCommits options with
      | Some sc =>
          Some (ReleasesSetCommits releaseName
                  {| auto := auto sc; repo := repo sc; commit := commit sc;
                     previousCommit := previousCommit sc;
                     ignoreMissing := ignoreMissing sc; ignoreEmpty := ignoreEmpty sc |})
      | None => None
      end
  | Finalize => if options_finalize options then Some (ReleasesFinalize releaseName) else None
  | Deploy =>
      match options_deploy options with
      | Some d =>
          Some (ReleasesNewDeploy releaseName
                  {| env := env d; started := started d; finished := finished d;
                     time := time d; name := name d; url := url d |})
      | None => None
      end
  end.

Definition info_breadcrumb (msg : string) : Breadcrumb :=
  {| level := "info"; message := msg |}.

(** Events of a skipped step. *)
Definition skip_events (s : Step) : Trace :=
  match s with
  | Create => []
  | Clean | Upload | Commits => [LoggerDebug (skip_message s)]
  | Finalize | Deploy =>
      [AddBreadcrumb (info_breadcrumb (skip_message s)); LoggerDebug (skip_message s)]
  end.

(** Events between the start of the span and the external call. *)
Definition announce_events (s : Step) : Trace :=
  match s with
  | Upload => [LoggerInfo "Uploading Sourcemaps."]
  | _ => []
  end.

(** Events after a call that succeeded. *)
Definition success_events (s : Step) : Trace :=
  match s with
  | Commits => [LoggerInfo (success_message s)]
  | _ => [AddBreadcrumb (info_breadcrumb (success_message s)); LoggerInfo (success_message s)]
  end.

Definition failure_error (s : Step) : JsError :=
  Error ("CLI Error: " ++ failure_description s ++ " failed").

Definition table_row (s : Step) (options : NormalizedOptions) (ctx : BuildContext)
    (releaseName : string) : Completion unit * Trace :=
  match step_request s options releaseName with
  | None => (Normal tt, skip_events s)
  | Some rq =>
      let span := telemetry ctx (span_name s) in
      match cli ctx rq with
      | Some e =>
          (Throw e,
           SpanStart (span_name s) span :: announce_events s ++
           [CliCall rq (Some e); CaptureException (failure_error s)] ++
           finish_events span)
      | None =>
          (Normal tt,
           SpanStart (span_name s) span :: announce_events s ++
           [CliCall rq None] ++ finish_events span ++ success_events s)
      end
  end.

(** A computation that adds events to the trace it is given and does not
    look at it. *)
Definition appends {A} (m : Eff Trace A) : Prop :=
  forall tr0, m tr0 = (fst (m []), tr0 ++ snd (m [])).

(** *** Sample configurations *)

Definition all_off : NormalizedOptions :=
  {| options_cleanArtifacts := false;
     options_uploadSourceMaps := false;
     options_include := [];
     options_dist := None;
     options_setCommits := None;
     options_finalize := false;
     options_deploy := None |}.

Definition all_on : NormalizedOptions :=
  {| options_cleanArtifacts := true;
     options_uploadSourceMaps := true;
     options_include := ["dist"];
     options_dist := Some "1";
     options_setCommits :=
       Some {| auto := Some true; repo := None; commit := None; previousCommit := None;
               ignoreMissing := None; ignoreEmpty := None |};
     options_finalize := true;
     options_deploy :=
       Some {| env := "production"; started := None; finished := None; time := None;
               name := None; url := None |} |}.

Definition service_down : BuildContext :=
  {| cli := fun _ => Some (Error "connect ECONNREFUSED");
     telemetry := fun op => Some {| span_op := op |} |}.

Definition service_up : BuildContext :=
  {| cli := fun _ => None;
     telemetry := fun op => Some {| span_op := op |} |}.

(** *** Steps awaited one after the other *)

(** [await step1(...); await step2(...); ...]: a step that throws ends the
    sequence. *)
Fixpoint run_steps (steps : list Step) (options : NormalizedOptions) (ctx : BuildContext)
    (releaseName : string) : Eff Trace unit :=
  match steps with
  | [] => ret tt
  | s :: rest =>
      run_step s options ctx releaseName ;;
      run_steps rest options ctx releaseName
  end.

(** The spans the helper handed out, and the spans that were finished. *)
Definition started_spans (tr : Trace) : list Span :=
  flat_map (fun ev => match ev with SpanStart _ (Some sp) => [sp] | _ => [] end) tr.

Definition finished_spans (tr : Trace) : list Span :=
  flat_map (fun ev => match ev with SpanFinish sp => [sp] | _ => [] end) tr.

(** The release a request is about. The generic [execute] names it in its
    argument list, after "releases" and "files". *)
Definition request_release (rq : CliRequest) : option string :=
  match rq with
  | ReleasesNew n => Some n
  | ReleasesExecute args _ => nth_error args 2
  | ReleasesUploadSourceMaps n _ => Some n
  | ReleasesSetCommits n _ => Some n
  | ReleasesFinalize n => Some n
  | ReleasesNewDeploy n _ => Some n
  end.

(** A service that refuses to delete files, without telemetry. *)
Definition delete_forbidden : BuildContext :=
  {| cli := fun rq => match rq with
                      | ReleasesExecute _ _ => Some (Error "403")
                      | _ => None
                      end;
     telemetry := fun _ => None |}.

(** The options a step looks at: its flag or option object, and for the
    upload also [include] and [dist]. *)
Definition same_options_for (s : Step) (o1 o2 : NormalizedOptions) : Prop :=
  match s with
  | Create => True
  | Clean => options_cleanArtifacts o1 = options_cleanArtifacts o2
  | Upload =>
      options_uploadSourceMaps o1 = options_uploadSourceMaps o2 /\
      (options_uploadSourceMaps o1 = true ->
       options_include o1 = options_include o2 /\ options_dist o1 = options_dist o2)
  | Commits => options_setCommits o1 = options_setCommits o2
  | Finalize => options_finalize o1 = options_finalize o2
  | Deploy => options_deploy o1 = options_deploy o2
  end.

(** How a sequence of steps goes, read off the options and the service: the
    requests that are sent, in order, and how the sequence completes. A
    skipped step sends nothing; the first rejected request is the last. *)
Fixpoint sequence_outcome (steps : list Step) (options : NormalizedOptions)
    (ctx : BuildContext) (releaseName : string) : Completion unit * list CliRequest :=
  match steps with
  | [] => (Normal tt, [])
  | s :: rest =>
      match step_request s options releaseName with
      | None => sequence_outcome rest options ctx releaseName
      | Some rq =>
          match cli ctx rq with
          | Some e => (Throw e, [rq])
          | None =>
              let (c, calls) := sequence_outcome rest options ctx releaseName in
              (c, rq :: calls)
          end
      end
  end.

(** Options with old artifacts cleaned and nothing else. *)
Definition only_clean : NormalizedOptions :=
  {| options_cleanArtifacts := true;
     options_uploadSourceMaps := false;
     options_include := [];
     options_dist := None;
     options_setCommits := None;
     options_finalize := false;
     options_deploy := None |}.

End ReleaseLifecycle.

(** * The esbuild plugins *)

Module Esbuild.

Local Open Scope string_scope.
Local Open Scope list_scope.
Local Open Scope eff_scope.

(** *** The host's data (esbuild's plugin interface) *)

Inductive ImportKind : Type :=
| entry_point | import_statement | require_call | dynamic_import
| require_resolve | import_rule | composes_from | url_token.

Definition is_entry_point (k : ImportKind) : bool :=
  match k with entry_point => true | _ => false end.

Record PluginData : Type := {
  originalPath : string;
  originalResolveDir : string
}.

Record OnResolveArgs : Type := {
  args_path : string;
  args_importer : string;
  args_namespace : string;
  args_resolveDir : string;
  args_kind : ImportKind;
  args_pluginData : option PluginData
}.

(** A key the callback does not set is [undefined], here [None]. *)
Record OnResolveResult : Type := {
  res_pluginName : option string;
  res_path : option string;
  res_namespace : option string;
  res_suffix : option string;
  res_sideEffects : option bool;
  res_pluginData : option PluginData
}.

Record OnLoadArgs : Type := {
  load_path : string;
  load_namespace : string;
  load_suffix : string;
  load_pluginData : option PluginData
}.

Record OnLoadResult : Type := {
  out_loader : option string;
  out_pluginName : option string;
  out_contents : option string;
  out_resolveDir : option string
}.

(** The output manifest. [outputs] is a JavaScript object keyed by output
    path; it is kept as the list of its own properties in enumeration order. *)
Record OutputMeta : Type := { bytes : nat; entryPoint : option string }.

Record Metafile : Type := {
  inputs : list string;
  outputs : list (string * OutputMeta)
}.

Definition Object_keys {A} (o : list (string * A)) : list string := map fst o.

Record BuildResult : Type := {
  result_errors : list string;
  result_metafile : option Metafile
}.

Record BuildOptions : Type := {
  entryPoints : list string;
  bundle : option bool;
  outdir : option string;
  inject : option (list string);
  metafile : option bool
}.

(** *** The world the callbacks run in *)

(** [entropy] is the sequence of values the random uuid generator will
    return, [drawn] how many of them were taken, [uploads] the argument of
    every call of the upload callback so far. *)
Record World : Type := {
  entropy : nat -> string;
  drawn : nat;
  uploads : list (list string)
}.

(** [uuidv4()] of the [uuid] package. *)
Definition uuidv4 : Eff World string :=
  fun w =>
    (Normal (entropy w (drawn w)),
     {| entropy := entropy w; drawn := S (drawn w); uploads := uploads w |}).

(** *** Hooks and their registration *)

(** The two filters the plugins use: [/.*/] and a pattern of literal
    characters, which matches a path that contains it. *)
Inductive Filter : Type :=
| MatchAny
| MatchLiteral (pattern : string).

Definition filter_test (f : Filter) (path : string) : bool :=
  match f with
  | MatchAny => true
  | MatchLiteral pattern => includes pattern path
  end.

Record HookOptions : Type := {
  hook_filter : Filter;
  hook_namespace : option string
}.

Definition hook_matches (o : HookOptions) (path namespace : string) : bool :=
  filter_test (hook_filter o) path &&
  match hook_namespace o with
  | None => true
  | Some ns => String.eqb ns namespace
  end.

Definition ResolveCallback : Type := OnResolveArgs -> Eff World (option OnResolveResult).
Definition LoadCallback : Type := OnLoadArgs -> Eff World (option OnLoadResult).
Definition EndCallback : Type := BuildResult -> Eff World unit.

(** The [build] object a plugin's [setup] receives: the options it may
    change and the callbacks registered so far, in registration order. *)
Record PluginBuild : Type := {
  initialOptions : BuildOptions;
  resolveCallbacks : list (HookOptions * ResolveCallback);
  loadCallbacks : list (HookOptions * LoadCallback);
  endCallbacks : list EndCallback
}.

Definition new_build (o : BuildOptions) : PluginBuild :=
  {| initialOptions := o; resolveCallbacks := []; loadCallbacks := []; endCallbacks := [] |}.

Definition set_initialOptions (o : BuildOptions) (b : PluginBuild) : PluginBuild :=
  {| initialOptions := o;
     resolveCallbacks := resolveCallbacks b;
     loadCallbacks := loadCallbacks b;
     endCallbacks := endCallbacks b |}.

Definition onResolve (o : HookOptions) (cb : ResolveCallback) (b : PluginBuild) : PluginBuild :=
  {| initialOptions := initialOptions b;
     resolveCallbacks := resolveCallbacks b ++ [(o, cb)];
     loadCallbacks := loadCallbacks b;
     endCallbacks := endCallbacks b |}.

Definition onLoad (o : HookOptions) (cb : LoadCallback) (b : PluginBuild) : PluginBuild :=
  {| initialOptions := initialOptions b;
     resolveCallbacks := resolveCallbacks b;
     loadCallbacks := loadCallbacks b ++ [(o, cb)];
     endCallbacks := endCallbacks b |}.

Definition onEnd (cb : EndCallback) (b : PluginBuild) : PluginBuild :=
  {| initialOptions := initialOptions b;
     resolveCallbacks := resolveCallbacks b;
     loadCallbacks := loadCallbacks b;
     endCallbacks := endCallbacks b ++ [cb] |}.

Record UnpluginOptions : Type := {
  plugin_name : string;
  esbuild_setup : PluginBuild -> PluginBuild
}.

(** How the host answers a resolution or a load: the callbacks whose filter
    and namespace match run in registration order, and the first result that
    is not [undefined] is the answer; [None] leaves the path to the host. *)
Fixpoint run_onResolve (cbs : list (HookOptions * ResolveCallback)) (args : OnResolveArgs)
    : Eff World (option OnResolveResult) :=
  match cbs with
  | [] => ret None
  | (o, cb) :: rest =>
      if hook_matches o (args_path args) (args_namespace args) then
        r <- cb args ;;
        match r with
        | Some res => ret (Some res)
        | None => run_onResolve rest args
        end
      else run_onResolve rest args
  end.

Fixpoint run_onLoad (cbs : list (HookOptions * LoadCallback)) (args : OnLoadArgs)
    : Eff World (option OnLoadResult) :=
  match cbs with
  | [] => ret None
  | (o, cb) :: rest =>
      if hook_matches o (load_path args) (load_namespace args) then
        r <- cb args ;;
        match r with
        | Some res => ret (Some res)
        | None => run_onLoad rest args
        end
      else run_onLoad rest args
  end.

Definition or_default {A} (o : option A) (d : A) : A :=
  match o with Some a => a | None => d end.

(** The build options after a plugin's setup ran on a build. *)
Definition options_after (p : UnpluginOptions) (b : PluginBuild) : BuildOptions :=
  initialOptions (esbuild_setup p b).

(** A plugin set up on a build that has no other plugin. *)
Definition install (p : UnpluginOptions) (o : BuildOptions) : PluginBuild :=
  esbuild_setup p (new_build o).

(** *** A build, as the plugin sees it

    The hook invocations the host makes for one entry point: it resolves the
    entry, loads the module it was redirected to, and, when that module
    imports the injection stub, resolves and loads the stub. *)

Definition stub_import : string := "_sentry-debug-id-injection-stub".

Record StubInstance : Type := {
  inst_entry : string;
  inst_suffix : option string;
  inst_contents : option string
}.

Definition bundle_entry (b : PluginBuild) (workingDir entry : string)
    : Eff World (option StubInstance) :=
  r <- run_onResolve (resolveCallbacks b)
         {| args_path := entry; args_importer := EmptyString; args_namespace := "file";
            args_resolveDir := workingDir; args_kind := entry_point;
            args_pluginData := None |} ;;
  match r with
  | None => ret None
  | Some redirect =>
      let module_path := or_default (res_path redirect) entry in
      let module_namespace := or_default (res_namespace redirect) "file" in
      m <- run_onLoad (loadCallbacks b)
             {| load_path := module_path; load_namespace := module_namespace;
                load_suffix := or_default (res_suffix redirect) EmptyString;
                load_pluginData := res_pluginData redirect |} ;;
      match m with
      | None => ret None
      | Some loaded =>
          if includes ("import " ++ quoted stub_import)%string
               (or_default (out_contents loaded) EmptyString)
          then
            s <- run_onResolve (resolveCallbacks b)
                   {| args_path := stub_import; args_importer := module_path;
                      args_namespace := module_namespace;
                      args_resolveDir := or_default (out_resolveDir loaded) workingDir;
                      args_kind := import_statement; args_pluginData := None |} ;;
            match s with
            | None => ret None
            | Some stub =>
                c <- run_onLoad (loadCallbacks b)
                       {| load_path := or_default (res_path stub) stub_import;
                          load_namespace := or_default (res_namespace stub) "file";
                          load_suffix := or_default (res_suffix stub) EmptyString;
                          load_pluginData := res_pluginData stub |} ;;
                match c with
                | None => ret None
                | Some code =>
                    ret (Some {| inst_entry := entry;
                                 inst_suffix := res_suffix stub;
                                 inst_contents := out_contents code |})
                end
            end
          else ret None
      end
  end.

Fixpoint bundle_entries (b : PluginBuild) (workingDir : string) (entries : list string)
    : Eff World (list (option StubInstance)) :=
  match entries with
  | [] => ret []
  | entry :: rest =>
      i <- bundle_entry b workingDir entry ;;
      others <- bundle_entries b workingDir rest ;;
      ret (i :: others)
  end.

(** The world after [k] more draws of the uuid generator. *)
Definition after_draws (k : nat) (w : World) : World :=
  {| entropy := entropy w; drawn := k + drawn w; uploads := uploads w |}.

(** The uuid source of a world never returns a value twice. *)
Definition collision_free (w : World) : Prop :=
  forall i j, entropy w i = entropy w j -> i = j.

Section Plugins.

(** [path.resolve] of Node, which makes a path absolute against the working
    directory of the process. *)
Variable path_resolve : string -> string.

(** [getDebugIdSnippet] of the plugin core: the injection code for a debug
    identifier. *)
Variable getDebugIdSnippet : string -> string.

(** *** Release injection *)

Definition releaseInjection_pluginName : string := "sentry-esbuild-release-injection-plugin".

Definition virtualReleaseInjectionFilePath : string :=
  path_resolve "_sentry-release-injection-stub".

Definition releaseInjection_onResolve : ResolveCallback :=
  fun args =>
    ret (Some {| res_path := Some (args_path args);
                 res_sideEffects := Some true;
                 res_pluginName := Some releaseInjection_pluginName;
                 res_namespace := None;
                 res_suffix := None;
                 res_pluginData := None |}).

Definition releaseInjection_onLoad (injectionCode : string) : LoadCallback :=
  fun _ =>
    ret (Some {| out_loader := Some "js";
                 out_pluginName := Some releaseInjection_pluginName;
                 out_contents := Some injectionCode;
                 out_resolveDir := None |}).

Definition releaseInjection_setup (injectionCode : string) (b : PluginBuild) : PluginBuild :=
  let o := initialOptions b in
  (* initialOptions.inject = initialOptions.inject || []; *)
  let inject0 := or_default (inject o) [] in
  (* initialOptions.inject.push(virtualReleaseInjectionFilePath); *)
  let b1 :=
    set_initialOptions
      {| entryPoints := entryPoints o;
         bundle := bundle o;
         outdir := outdir o;
         inject := Some (inject0 ++ [virtualReleaseInjectionFilePath]);
         metafile := metafile o |} b in
  let b2 :=
    onResolve {| hook_filter := MatchLiteral "_sentry-release-injection-stub";
                 hook_namespace := None |}
      releaseInjection_onResolve b1 in
  onLoad {| hook_filter := MatchLiteral "_sentry-release-injection-stub";
            hook_namespace := None |}
    (releaseInjection_onLoad injectionCode) b2.

Definition esbuildReleaseInjectionPlugin (injectionCode : string) : UnpluginOptions :=
  {| plugin_name := releaseInjection_pluginName;
     esbuild_setup := releaseInjection_setup injectionCode |}.

(** *** Debug-id injection *)

Definition debugId_pluginName : string := "sentry-esbuild-debug-id-injection-plugin".
Definition proxyNamespace : string := "sentry-debug-id-proxy".
Definition stubNamespace : string := "sentry-debug-id-stub".

Definition debugId_onResolve_entry : ResolveCallback :=
  fun args =>
    if negb (is_entry_point (args_kind args)) then ret None
    else
      ret (Some {| res_pluginName := Some debugId_pluginName;
                   res_path := Some (args_path args);
                   res_namespace := Some proxyNamespace;
                   res_pluginData :=
                     Some {| originalPath := args_path args;
                             originalResolveDir := args_resolveDir args |};
                   res_suffix := None;
                   res_sideEffects := None |}).

(** The lines of the template literal start with a line feed and fourteen
    blanks each. *)
Definition template_indent : string := "              ".

Definition proxy_contents (originalPath : string) : string :=
  (newline ++ template_indent ++ "import " ++ quoted "_sentry-debug-id-injection-stub" ++ ";" ++
   newline ++ template_indent ++ "import * as OriginalModule from " ++ quoted originalPath ++ ";" ++
   newline ++ template_indent ++ "export default OriginalModule.default;" ++
   newline ++ template_indent ++ "export * from " ++ quoted originalPath ++ ";")%string.

(** The statements of the proxy module in the order the design gives them:
    the stub import, the import of the original module, the forwarding of its
    default export, the wildcard re-export of its named exports. *)
Definition proxy_statements (originalPath : string) : list string :=
  [ ("import " ++ quoted "_sentry-debug-id-injection-stub" ++ ";")%string;
    ("import * as OriginalModule from " ++ quoted originalPath ++ ";")%string;
    "export default OriginalModule.default;";
    ("export * from " ++ quoted originalPath ++ ";")%string ].

(** Each statement on a line of its own, indented as in the template. *)
Definition layout (statements : list string) : string :=
  String.concat EmptyString
    (map (fun st => (newline ++ template_indent ++ st)%string) statements).

Definition debugId_onLoad_proxy : LoadCallback :=
  fun args =>
    match load_pluginData args with
    | None =>
        (* reading a property of [undefined] *)
        throw (Error "TypeError: Cannot read properties of undefined (reading 'originalPath')")
    | Some data =>
        ret (Some {| out_loader := Some "js";
                     out_pluginName := Some debugId_pluginName;
                     out_contents := Some (proxy_contents (originalPath data));
                     out_resolveDir := Some (originalResolveDir data) |})
    end.

Definition debugId_onResolve_stub : ResolveCallback :=
  fun args =>
    token <- uuidv4 ;;
    ret (Some {| res_path := Some (args_path args);
                 res_sideEffects := Some true;
                 res_pluginName := Some debugId_pluginName;
                 res_namespace := Some stubNamespace;
                 res_suffix := Some ("?sentry-module-id=" ++ token)%string;
                 res_pluginData := None |}).

Definition debugId_onLoad_stub : LoadCallback :=
  fun _ =>
    debugId <- uuidv4 ;;
    ret (Some {| out_loader := Some "js";
                 out_pluginName := Some debugId_pluginName;
                 out_contents := Some (getDebugIdSnippet debugId);
                 out_resolveDir := None |}).

Definition debugId_setup (b : PluginBuild) : PluginBuild :=
  let b1 := onResolve {| hook_filter := MatchAny; hook_namespace := None |}
              debugId_onResolve_entry b in
  let b2 := onLoad {| hook_filter := MatchAny; hook_namespace := Some proxyNamespace |}
              debugId_onLoad_proxy b1 in
  let b3 := onResolve {| hook_filter := MatchLiteral "_sentry-debug-id-injection-stub";
                         hook_namespace := None |}
              debugId_onResolve_stub b2 in
  onLoad {| hook_filter := MatchLiteral "_sentry-debug-id-injection-stub";
            hook_namespace := Some stubNamespace |}
    debugId_onLoad_stub b3.

Definition esbuildDebugIdInjectionPlugin : UnpluginOptions :=
  {| plugin_name := debugId_pluginName; esbuild_setup := debugId_setup |}.

(** *** Debug-id upload *)

(** The caller's [upload] resolves ([None]) or rejects; every call is
    recorded in the world. *)
Definition call_upload (upload : list string -> option JsError) (buildArtifacts : list string)
    : Eff World unit :=
  modify (fun w => {| entropy := entropy w; drawn := drawn w;
                      uploads := uploads w ++ [buildArtifacts] |}) ;;
  match upload buildArtifacts with
  | None => ret tt
  | Some e => throw e
  end.

Definition debugIdUpload_onEnd (upload : list string -> option JsError) : EndCallback :=
  fun result =>
    let buildArtifacts :=
      match result_metafile result with
      | Some m => Object_keys (outputs m)
      | None => []
      end in
    call_upload upload buildArtifacts.

Definition debugIdUpload_setup (upload : list string -> option JsError) (b : PluginBuild)
    : PluginBuild :=
  let o := initialOptions b in
  let b1 :=
    set_initialOptions
      {| entryPoints := entryPoints o;
         bundle := bundle o;
         outdir := outdir o;
         inject := inject o;
         metafile := Some true |} b in
  onEnd (debugIdUpload_onEnd upload) b1.

Definition esbuildDebugIdUploadPlugin (upload : list string -> option JsError)
    : UnpluginOptions :=
  {| plugin_name := "sentry-esbuild-debug-id-upload-plugin";
     esbuild_setup := debugIdUpload_setup upload |}.

End Plugins.

(** What the debug-id plugin makes of a list of entries when the uuid
    generator has returned [d] values so far: one stub per entry, with the
    next value in its suffix and the one after in its code. *)
Fixpoint entry_instances (getDebugIdSnippet : string -> string) (source : nat -> string)
    (d : nat) (entries : list string) : list StubInstance :=
  match entries with
  | [] => []
  | entry :: rest =>
      {| inst_entry := entry;
         inst_suffix := Some ("?sentry-module-id=" ++ source d)%string;
         inst_contents := Some (getDebugIdSnippet (source (S d))) |}
      :: entry_instances getDebugIdSnippet source (S (S d)) rest
  end.

(** The positions [d], [d + 2], ... of [n] draws, every other one. *)
Fixpoint every_other (d n : nat) : list nat :=
  match n with
  | 0 => []
  | S n' => d :: every_other (S (S d)) n'
  end.

(** *** Sample hosts *)

(** A uuid source that never repeats: "0", "10", "110", ... *)
Fixpoint sample_uuid (n : nat) : string :=
  match n with
  | 0 => "0"
  | S k => String "1"%char (sample_uuid k)
  end.

Definition sample_world : World :=
  {| entropy := sample_uuid; drawn := 0; uploads := [] |}.

Definition sample_snippet (debugId : string) : string :=
  ("sentry-dbid-" ++ debugId)%string.

Definition sample_path_resolve (p : string) : string := ("/work/" ++ p)%string.

Definition sample_build_options : BuildOptions :=
  {| entryPoints := ["src/a.js"; "src/b.js"];
     bundle := Some true;
     outdir := Some "out";
     inject := Some ["shim.js"];
     metafile := Some false |}.

Definition sample_metafile : Metafile :=
  {| inputs := ["src/a.js"; "src/b.js"];
     outputs := [("a.js", {| bytes := 120; entryPoint := Some "src/a.js" |});
                 ("b.js", {| bytes := 80; entryPoint := Some "src/b.js" |})] |}.

(** Several plugins on one build: the host runs the [setup] of each plugin
    of its [plugins] array in order, on the same build. *)
Definition install_all (plugins : list UnpluginOptions) (o : BuildOptions) : PluginBuild :=
  fold_left (fun b p => esbuild_setup p b) plugins (new_build o).

(** The resolution of the injected release stub, as an entry point. *)
Definition release_stub_args : OnResolveArgs :=
  {| args_path := "/work/_sentry-release-injection-stub";
     args_importer := EmptyString;
     args_namespace := "file";
     args_resolveDir := "/work";
     args_kind := entry_point;
     args_pluginData := None |}.

(** *** Reading the generated source

    What a module specifier written between double quotes denotes, by the
    rules of JavaScript string literals in module code. A character is a code
    unit below 256. *)

Definition backslash : ascii := "092"%char.
Definition line_feed : ascii := "010"%char.
Definition carriage_return : ascii := "013"%char.

Definition is_decimal_digit (c : ascii) : bool :=
  ((48 <=? nat_of_ascii c) && (nat_of_ascii c <=? 57))%nat.

Definition hex_digit_value (c : ascii) : option nat :=
  let n := nat_of_ascii c in
  (if (48 <=? n) && (n <=? 57) then Some (n - 48)
   else if (97 <=? n) && (n <=? 102) then Some (n - 87)
   else if (65 <=? n) && (n <=? 70) then Some (n - 55)
   else None)%nat.

(** [\b \t \n \v \f \r] and the escaped quotes and backslash. *)
Definition single_escape (c : ascii) : option ascii :=
  if Ascii.eqb c "b" then Some "008"%char
  else if Ascii.eqb c "t" then Some "009"%char
  else if Ascii.eqb c "n" then Some "010"%char
  else if Ascii.eqb c "v" then Some "011"%char
  else if Ascii.eqb c "f" then Some "012"%char
  else if Ascii.eqb c "r" then Some "013"%char
  else if Ascii.eqb c "'" then Some "'"%char
  else if Ascii.eqb c "034" then Some "034"%char
  else if Ascii.eqb c backslash then Some backslash
  else None.

Definition with_char (c : ascii) (r : option (string * string)) : option (string * string) :=
  match r with
  | Some (value, rest) => Some (String c value, rest)
  | None => None
  end.

(** The text after an opening double quote: the value of the literal and
    the text after its closing quote. [None]: the text is no string literal
    (no closing quote, a line break inside, a digit or a broken hexadecimal
    escape after a backslash), or it has an escape this model does not read
    ([\u] with braces, or a code unit of 256 or more). A backslash before
    any other character stands for that character alone. *)
Fixpoint read_string_literal (s : string) : option (string * string) :=
  match s with
  | EmptyString => None
  | String c rest =>
      if Ascii.eqb c "034" then Some (EmptyString, rest)
      else if Ascii.eqb c line_feed || Ascii.eqb c carriage_return then None
      else if Ascii.eqb c backslash then
        match rest with
        | EmptyString => None
        | String e rest1 =>
            if Ascii.eqb e line_feed then read_string_literal rest1
            else if Ascii.eqb e carriage_return then
              match rest1 with
              | String f rest2 =>
                  if Ascii.eqb f line_feed then read_string_literal rest2
                  else read_string_literal rest1
              | EmptyString => None
              end
            else
              match single_escape e with
              | Some v => with_char v (read_string_literal rest1)
              | None =>
                  if Ascii.eqb e "0" then
                    match rest1 with
                    | String d _ =>
                        if is_decimal_digit d then None
                        else with_char "000"%char (read_string_literal rest1)
                    | EmptyString => None
                    end
                  else if is_decimal_digit e then None
                  else if Ascii.eqb e "x" then
                    match rest1 with
                    | String h1 (String h2 rest2) =>
                        match hex_digit_value h1, hex_digit_value h2 with
                        | Some a, Some b =>
                            with_char (ascii_of_nat (16 * a + b))
                              (read_string_literal rest2)
                        | _, _ => None
                        end
                    | _ => None
                    end
                  else if Ascii.eqb e "u" then
                    match rest1 with
                    | String h1 (String h2 (String h3 (String h4 rest2))) =>
                        match hex_digit_value h1, hex_digit_value h2,
                              hex_digit_value h3, hex_digit_value h4 with
                        | Some 0, Some 0, Some a, Some b =>
                            with_char (ascii_of_nat (16 * a + b))
                              (read_string_literal rest2)
                        | _, _, _, _ => None
                        end
                    | _ => None
                    end
                  else with_char e (read_string_literal rest1)
              end
        end
      else with_char c (read_string_literal rest)
  end.

Fixpoint after_first_quote (s : string) : option string :=
  match s with
  | EmptyString => None
  | String c rest => if Ascii.eqb c "034" then Some rest else after_first_quote rest
  end.

(** The module an [import] or [export ... from] statement names: the value
    of its first string literal. *)
Definition module_specifier (statement : string) : option string :=
  match after_first_quote statement with
  | Some body =>
      match read_string_literal body with
      | Some (value, _) => Some value
      | None => None
      end
  | None => None
  end.



(** An entry point given by an absolute path on Windows. *)
Definition windows_entry : string := "C:\work\src\new.js".

Definition windows_entry_args : OnResolveArgs :=
  {| args_path := windows_entry;
     args_importer := EmptyString;
     args_namespace := "file";
     args_resolveDir := "C:\work";
     args_kind := entry_point;
     args_pluginData := None |}.

End Esbuild.

(** * The bundles of the integration tests *)

Module IntegrationTests.

Local Open Scope string_scope.
Local Open Scope list_scope.

(** *** The built-ins the file uses

    A character is a code unit below 256. *)

(** [s.split(".")[0]]: the text before the first dot, all of [s] when it
    has none. *)
Fixpoint before_first_dot (s : string) : string :=
  match s with
  | EmptyString => EmptyString
  | String c rest =>
      if Ascii.eqb c "."%char then EmptyString else String c (before_first_dot rest)
  end.

(** [s.slice(1)] *)
Definition slice_1 (s : string) : string :=
  match s with
  | EmptyString => EmptyString
  | String _ rest => rest
  end.

(** White space that [parseInt] skips: tab, line feed, vertical tab, form
    feed, carriage return, space, no-break space. *)
Definition is_white_space (c : ascii) : bool :=
  let n := nat_of_ascii c in
  (((9 <=? n) && (n <=? 13)) || (n =? 32) || (n =? 160))%nat.

Fixpoint trim_start (s : string) : string :=
  match s with
  | EmptyString => EmptyString
  | String c rest => if is_white_space c then trim_start rest else s
  end.

(** The value of a digit in a radix: "0"-"9", then letters of either case. *)
Definition digit_value (radix : nat) (c : ascii) : option nat :=
  let n := nat_of_ascii c in
  let v :=
    (if (48 <=? n) && (n <=? 57) then Some (n - 48)
     else if (97 <=? n) && (n <=? 122) then Some (n - 87)
     else if (65 <=? n) && (n <=? 90) then Some (n - 55)
     else None)%nat in
  match v with
  | Some d => if (d <? radix)%nat then Some d else None
  | None => None
  end.

(** The number written by the longest prefix of digits; [None] when the text
    starts with no digit. *)
Fixpoint parse_digits (radix : nat) (s : string) (acc : nat) (seen : bool) : option nat :=
  match s with
  | EmptyString => if seen then Some acc else None
  | String c rest =>
      match digit_value radix c with
      | Some d => parse_digits radix rest (radix * acc + d) true
      | None => if seen then Some acc else None
      end
  end.

(** What [parseInt] returns, as far as this model tells: [NaN]; an integer
    of magnitude at most 2^53, which a JavaScript number holds exactly; or a
    number of larger magnitude, of which only the sign is kept (JavaScript
    rounds such an integer to a double or to an infinity, and the rounded
    value is not below 2^53 in magnitude either). *)
Inductive ParsedInt : Type :=
| NotANumber
| SafeInteger (z : Z)
| BeyondSafe (negative : bool).

Definition two_to_53 : Z := 9007199254740992.

(** [parseInt(s)] without a radix. Leading white space is skipped, then a
    sign and a hexadecimal prefix are read, then the longest prefix of
    digits. *)
Definition parseInt (s : string) : ParsedInt :=
  let s1 := trim_start s in
  let (negative, s2) :=
    match s1 with
    | String "-"%char rest => (true, rest)
    | String "+"%char rest => (false, rest)
    | _ => (false, s1)
    end in
  let (radix, s3) :=
    match s2 with
    | String "0"%char (String "x"%char rest) => (16, rest)
    | String "0"%char (String "X"%char rest) => (16, rest)
    | _ => (10, s2)
    end in
  match parse_digits radix s3 0 false with
  | Some n =>
      if (Z.of_nat n <=? two_to_53)%Z
      then SafeInteger (if negative then (- Z.of_nat n)%Z else Z.of_nat n)
      else BeyondSafe negative
  | None => NotANumber
  end.

(** [x < 18]: false for [NaN]; a number beyond 2^53 is below 18 exactly
    when it is negative. *)
Definition js_lt_18 (x : ParsedInt) : bool :=
  match x with
  | NotANumber => false
  | SafeInteger v => (v <? 18)%Z
  | BeyondSafe negative => negative
  end.

(** *** [create-cjs-bundles.ts] *)

(** [process.version.split(".")[0]!.slice(1)] *)
Definition nodejsMajorversion (process_version : string) : string :=
  slice_1 (before_first_dot process_version).

Inductive Bundler : Type :=
| ViteBundler | RollupBundler | EsbuildBundler | Webpack4Bundler | Webpack5Bundler.

Section CreateCjsBundles.

(** The entry points and the plugin options are handed to the bundlers as
    they are; [path.join] is Node's. *)
Variable Entrypoints PluginOptions : Type.
Variable path_join : string -> string -> string.

(** One bundler started: which one, where it writes, what it bundles, and
    the options of the Sentry plugin it is given. *)
Record Launch : Type := {
  launch_bundler : Bundler;
  launch_outDir : string;
  launch_input : Entrypoints;
  launch_pluginOptions : PluginOptions
}.

(** The bundlers [createCjsBundles] starts, in the order it starts them. *)
Definition createCjsBundles (process_version : string) (entrypoints : Entrypoints)
    (outFolder : string) (sentryUnpluginOptions : PluginOptions) : list Launch :=
  let launch b dir :=
    {| launch_bundler := b;
       launch_outDir := path_join outFolder dir;
       launch_input := entrypoints;
       launch_pluginOptions := sentryUnpluginOptions |} in
  [launch ViteBundler "vite"; launch RollupBundler "rollup"; launch EsbuildBundler "esbuild"]
  ++ (if js_lt_18 (parseInt (nodejsMajorversion process_version))
      then [launch Webpack4Bundler "webpack4"]
      else [])
  ++ [launch Webpack5Bundler "webpack5"].

End CreateCjsBundles.

(** The decimal numeral of a natural number. *)
Definition decimal (n : nat) : string := NilEmpty.string_of_uint (Nat.to_uint n).

(** A [path.join] for the examples. *)
Definition sample_path_join (folder dir : string) : string := folder ++ "/" ++ dir.

End IntegrationTests.

(** * Facts about the release lifecycle steps *)

Import ReleaseLifecycle.

Unset Implicit Arguments.

Local Open Scope string_scope.
Local Open Scope list_scope.

(** ** Every step only appends to the trace *)

Create HintDb appends_db.

Lemma appends_ret A (a : A) : appends (ret a).
Proof. intro tr0. unfold ret. simpl. now rewrite app_nil_r. Qed.

Lemma appends_throw A (e : JsError) : appends (@throw Trace A e).
Proof. intro tr0. unfold throw. simpl. now rewrite app_nil_r. Qed.

Lemma appends_emit ev : appends (emit ev).
Proof. intro tr0. reflexivity. Qed.

Lemma appends_bind A B (m : Eff Trace A) (k : A -> Eff Trace B) :
  appends m -> (forall a, appends (k a)) -> appends (bind m k).
Proof.
  intros Hm Hk tr0. unfold bind.
  rewrite (Hm tr0). destruct (m []) as [[a | e] t]; simpl.
  - rewrite (Hk a (tr0 ++ t)), (Hk a t). simpl. now rewrite app_assoc.
  - reflexivity.
Qed.

Lemma appends_try_catch A (body : Eff Trace A) handler :
  appends body -> (forall e, appends (handler e)) -> appends (try_catch body handler).
Proof.
  intros Hb Hh tr0. unfold try_catch.
  rewrite (Hb tr0). destruct (body []) as [[a | e] t]; simpl.
  - reflexivity.
  - rewrite (Hh e (tr0 ++ t)), (Hh e t). simpl. now rewrite app_assoc.
Qed.

Lemma appends_try_finally A (body : Eff Trace A) fin :
  appends body -> appends fin -> appends (try_finally body fin).
Proof.
  intros Hb Hf tr0. unfold try_finally.
  rewrite (Hb tr0). destruct (body []) as [c t]; simpl.
  rewrite (Hf (tr0 ++ t)), (Hf t).
  destruct (fin []) as [[u | e] t']; simpl; now rewrite app_assoc.
Qed.

Lemma appends_try_catch_finally A (body : Eff Trace A) handler fin :
  appends body -> (forall e, appends (handler e)) -> appends fin ->
  appends (try_catch_finally body handler fin).
Proof.
  intros. unfold try_catch_finally.
  apply appends_try_finally; [apply appends_try_catch |]; assumption.
Qed.

#[local] Hint Resolve appends_ret appends_throw appends_emit appends_bind
  appends_try_catch_finally : appends_db.

Lemma appends_cli_releases ctx rq : appends (cli_releases ctx rq).
Proof.
  unfold cli_releases. apply appends_bind; [apply appends_emit |].
  intros _. destruct (cli ctx rq); auto with appends_db.
Qed.

Lemma appends_span_finish sp : appends (span_finish sp).
Proof. destruct sp; simpl; auto with appends_db. Qed.

Lemma appends_addSpanToTransaction ctx op : appends (addSpanToTransaction ctx op).
Proof. unfold addSpanToTransaction. auto with appends_db. Qed.

#[local] Hint Resolve appends_cli_releases appends_span_finish
  appends_addSpanToTransaction : appends_db.

Ltac appends_step :=
  repeat first
    [ apply appends_cli_releases
    | apply appends_span_finish
    | apply appends_addSpanToTransaction
    | apply appends_emit
    | apply appends_ret
    | apply appends_throw
    | apply appends_try_catch_finally; [| intro |]
    | apply appends_bind; [| intro] ].

Lemma appends_run_step s options ctx releaseName :
  appends (run_step s options ctx releaseName).
Proof.
  destruct s; simpl;
    unfold createNewRelease, cleanArtifacts, uploadSourceMaps, setCommits,
      finalizeRelease, addDeploy,
      hub_captureException, hub_addBreadcrumb, logger_info, logger_debug.
  - appends_step.
  - destruct (negb (options_cleanArtifacts options)); appends_step.
  - destruct (negb (options_uploadSourceMaps options)); appends_step.
  - destruct (options_setCommits options); appends_step.
  - destruct (negb (options_finalize options)); appends_step.
  - destruct (options_deploy options); appends_step.
Qed.

(** A step run after any history: same completion, its own events appended. *)
Lemma run_step_frame s options ctx releaseName tr0 :
  run_step s options ctx releaseName tr0 =
  (step_completion s options ctx releaseName,
   tr0 ++ step_events s options ctx releaseName).
Proof. apply appends_run_step. Qed.

(** ** The steps of the source follow the step table *)

Ltac unfold_steps :=
  unfold step_events, step_completion, table_row, step_request, run_step,
    createNewRelease, cleanArtifacts, uploadSourceMaps, setCommits, finalizeRelease,
    addDeploy, addSpanToTransaction, cli_releases, span_finish, finish_events,
    hub_captureException, hub_addBreadcrumb, logger_info, logger_debug,
    try_catch_finally, try_finally, try_catch, bind, ret, throw, emit, modify.

Lemma run_step_table s options ctx releaseName :
  (step_completion s options ctx releaseName, step_events s options ctx releaseName) =
  table_row s options ctx releaseName.
Proof.
  destruct s; unfold_steps; simpl.
  - destruct (cli ctx _); destruct (telemetry ctx _); reflexivity.
  - destruct (options_cleanArtifacts options); simpl; [| reflexivity].
    destruct (cli ctx _); destruct (telemetry ctx _); reflexivity.
  - destruct (options_uploadSourceMaps options); simpl; [| reflexivity].
    destruct (cli ctx _); destruct (telemetry ctx _); reflexivity.
  - destruct (options_setCommits options) as [sc |]; simpl; [| reflexivity].
    destruct (cli ctx _); destruct (telemetry ctx _); reflexivity.
  - destruct (options_finalize options); simpl; [| reflexivity].
    destruct (cli ctx _); destruct (telemetry ctx _); reflexivity.
  - destruct (options_deploy options) as [d |]; simpl; [| reflexivity].
    destruct (cli ctx _); destruct (telemetry ctx _); reflexivity.
Qed.

Lemma step_events_table s options ctx releaseName :
  step_events s options ctx releaseName = snd (table_row s options ctx releaseName).
Proof. now rewrite <- run_step_table. Qed.

Lemma step_completion_table s options ctx releaseName :
  step_completion s options ctx releaseName = fst (table_row s options ctx releaseName).
Proof. now rewrite <- run_step_table. Qed.

Lemma skipped_no_request s options releaseName :
  skipped s options = true <-> step_request s options releaseName = None.
Proof.
  destruct s; simpl;
    try destruct (options_cleanArtifacts options);
    try destruct (options_uploadSourceMaps options);
    try destruct (options_setCommits options);
    try destruct (options_finalize options);
    try destruct (options_deploy options);
    simpl; split; intro H; try reflexivity; discriminate H.
Qed.

Lemma not_skipped_request s options releaseName :
  skipped s options = false -> exists rq, step_request s options releaseName = Some rq.
Proof.
  intro H. destruct (step_request s options releaseName) as [rq |] eqn:E.
  - now exists rq.
  - apply skipped_no_request in E. congruence.
Qed.

(** An external call found in a step's events is the step's request, with the
    answer the service gave. *)
Lemma cli_call_in_step_events s options ctx releaseName rq answer :
  In (CliCall rq answer) (step_events s options ctx releaseName) ->
  step_request s options releaseName = Some rq /\ cli ctx rq = answer.
Proof.
  rewrite step_events_table. unfold table_row.
  destruct (step_request s options releaseName) as [rq0 |].
  - destruct (cli ctx rq0) as [e0 |] eqn:Ecli;
      destruct (telemetry ctx (span_name s)); destruct s; simpl;
      intro H; repeat (destruct H as [H | H]; try discriminate H);
      try contradiction; injection H as <- <-; auto.
  - destruct s; simpl; intro H;
      repeat (destruct H as [H | H]; try discriminate H); contradiction.
Qed.

(** A step that is not skipped sends its request, once. *)
Lemma requested_call_is_made s options ctx releaseName rq :
  step_request s options releaseName = Some rq ->
  cli_calls (step_events s options ctx releaseName) = [rq] /\
  In (CliCall rq (cli ctx rq)) (step_events s options ctx releaseName).
Proof.
  intro Hrq. rewrite step_events_table. unfold table_row. rewrite Hrq.
  destruct (cli ctx rq); destruct (telemetry ctx (span_name s)); destruct s;
    simpl; auto 6.
Qed.

(** ** The claims about the steps *)

(** C3. When a step is enabled and the service rejects its request with [e],
    the step makes that call, captures one new exception whose message is
    "CLI Error: <what the step does> failed", right after the call, and
    completes by throwing [e] itself; it adds no breadcrumb and does not log
    its success message. *)
Theorem failed_step_captures_and_rethrows s options ctx releaseName rq e :
  skipped s options = false ->
  step_request s options releaseName = Some rq ->
  cli ctx rq = Some e ->
  (forall tr0,
      run_step s options ctx releaseName tr0 =
      (Throw e, tr0 ++ step_events s options ctx releaseName)) /\
  In (CliCall rq (Some e)) (step_events s options ctx releaseName) /\
  captured (step_events s options ctx releaseName) =
    [Error ("CLI Error: " ++ failure_description s ++ " failed")] /\
  (exists before after,
      step_events s options ctx releaseName =
      before ++ CliCall rq (Some e) ::
        CaptureException (Error ("CLI Error: " ++ failure_description s ++ " failed")) ::
        after) /\
  breadcrumbs (step_events s options ctx releaseName) = [] /\
  ~ In (success_message s) (info_logs (step_events s options ctx releaseName)).
Proof.
  intros _ Hrq Hcli.
  assert (Hrow : table_row s options ctx releaseName =
                 (Throw e,
                  SpanStart (span_name s) (telemetry ctx (span_name s)) ::
                  announce_events s ++
                  [CliCall rq (Some e); CaptureException (failure_error s)] ++
                  finish_events (telemetry ctx (span_name s)))).
  { unfold table_row. now rewrite Hrq, Hcli. }
  split; [| rewrite step_events_table, Hrow; simpl snd; repeat split].
  - intro tr0. rewrite run_step_frame, step_completion_table, Hrow. reflexivity.
  - apply in_cons, in_or_app. right. now left.
  - destruct s; destruct (telemetry ctx _); reflexivity.
  - exists (SpanStart (span_name s) (telemetry ctx (span_name s)) :: announce_events s),
      (finish_events (telemetry ctx (span_name s))).
    rewrite app_comm_cons. reflexivity.
  - destruct s; destruct (telemetry ctx _); reflexivity.
  - destruct s; destruct (telemetry ctx _); simpl; intro H;
      repeat (destruct H as [H | H]; try discriminate H); contradiction.
Qed.

Lemma failed_step_captures_and_rethrows_witness :
  run_step Create all_on service_down "v1" [] =
    (Throw (Error "connect ECONNREFUSED"),
     [SpanStart "function.plugin.create_release"
        (Some {| span_op := "function.plugin.create_release" |});
      CliCall (ReleasesNew "v1") (Some (Error "connect ECONNREFUSED"));
      CaptureException (Error "CLI Error: Creating new release failed");
      SpanFinish {| span_op := "function.plugin.create_release" |}]).
Proof.
  exact (proj1 (failed_step_captures_and_rethrows Create all_on service_down "v1"
                  (ReleasesNew "v1") (Error "connect ECONNREFUSED")
                  eq_refl eq_refl eq_refl) []).
Defined.

(** C4. A step whose flag is false, or whose option object is absent, makes no
    external call, captures no exception, completes normally, and whatever
    follows it in the pipeline runs next. *)
Theorem skipped_step_is_inert s options ctx releaseName :
  skipped s options = true ->
  (forall tr0,
      run_step s options ctx releaseName tr0 =
      (Normal tt, tr0 ++ step_events s options ctx releaseName)) /\
  cli_calls (step_events s options ctx releaseName) = [] /\
  captured (step_events s options ctx releaseName) = [] /\
  (forall B (next : Eff Trace B) tr0,
      bind (run_step s options ctx releaseName) (fun _ => next) tr0 =
      next (tr0 ++ step_events s options ctx releaseName)).
Proof.
  intro Hskip.
  apply (skipped_no_request s options releaseName) in Hskip.
  assert (Hrow : table_row s options ctx releaseName = (Normal tt, skip_events s)).
  { unfold table_row. now rewrite Hskip. }
  assert (Hrun : forall tr0,
             run_step s options ctx releaseName tr0 =
             (Normal tt, tr0 ++ step_events s options ctx releaseName)).
  { intro tr0. rewrite run_step_frame, step_completion_table, Hrow. reflexivity. }
  split; [exact Hrun |].
  rewrite step_events_table, Hrow in *. simpl snd in *.
  repeat split.
  - destruct s; reflexivity.
  - destruct s; reflexivity.
  - intros B next tr0. unfold bind. rewrite Hrun. reflexivity.
Qed.

Lemma skipped_step_is_inert_witness :
  cli_calls (step_events Finalize all_off service_down "v1") = [] /\
  run_step Commits all_off service_down "v1" [] =
    (Normal tt, [] ++ step_events Commits all_off service_down "v1").
Proof.
  split.
  - exact (proj1 (proj2 (skipped_step_is_inert Finalize all_off service_down "v1" eq_refl))).
  - exact (proj1 (skipped_step_is_inert Commits all_off service_down "v1" eq_refl) []).
Defined.

(** C6. A step that is not skipped starts a span under its own operation name
    before the external call and, whether the call resolves or throws,
    finishes the span it was given after the call; a skipped step starts no
    span. *)
Theorem span_wraps_external_call s options ctx releaseName :
  (skipped s options = false ->
   exists rq,
     step_request s options releaseName = Some rq /\
     span_view (step_events s options ctx releaseName) =
       SpanStart (span_name s) (telemetry ctx (span_name s)) ::
       CliCall rq (cli ctx rq) ::
       finish_events (telemetry ctx (span_name s))) /\
  (skipped s options = true ->
   span_view (step_events s options ctx releaseName) = []).
Proof.
  split; intro Hskip.
  - destruct (not_skipped_request s options releaseName Hskip) as [rq Hrq].
    exists rq. split; [exact Hrq |].
    rewrite step_events_table. unfold table_row. rewrite Hrq.
    destruct (cli ctx rq); destruct (telemetry ctx (span_name s)); destruct s; reflexivity.
  - apply (skipped_no_request s options releaseName) in Hskip.
    rewrite step_events_table. unfold table_row. rewrite Hskip.
    destruct s; reflexivity.
Qed.

(** C7. With [finalize] false and [deploy] absent, the finalize step and the
    add-deploy step each add one info breadcrumb that says it is skipping,
    log the same line at debug level, and return without an external call;
    the clean, upload and set-commits steps, when skipped, only log their
    debug line. *)
Theorem skipping_breadcrumbs_only_for_finalize_and_deploy options ctx releaseName tr0 :
  options_finalize options = false ->
  options_deploy options = None ->
  finalizeRelease options ctx releaseName tr0 =
    (Normal tt,
     tr0 ++ [AddBreadcrumb {| level := "info"; message := "Skipping release finalization." |};
             LoggerDebug "Skipping release finalization."]) /\
  addDeploy options ctx releaseName tr0 =
    (Normal tt,
     tr0 ++ [AddBreadcrumb
               {| level := "info"; message := "Skipping adding deploy info to release." |};
             LoggerDebug "Skipping adding deploy info to release."]) /\
  (options_cleanArtifacts options = false ->
   cleanArtifacts options ctx releaseName tr0 =
     (Normal tt, tr0 ++ [LoggerDebug "Skipping artifact cleanup."])) /\
  (options_uploadSourceMaps options = false ->
   uploadSourceMaps options ctx releaseName tr0 =
     (Normal tt, tr0 ++ [LoggerDebug "Skipping source maps upload."])) /\
  (options_setCommits options = None ->
   setCommits options ctx releaseName tr0 =
     (Normal tt, tr0 ++ [LoggerDebug "Skipping setting commits to release."])).
Proof.
  intros Hfin Hdep.
  unfold finalizeRelease, addDeploy, cleanArtifacts, uploadSourceMaps, setCommits.
  rewrite Hfin, Hdep. simpl negb. cbv iota.
  repeat split.
  - unfold_steps. simpl. now rewrite <- app_assoc.
  - unfold_steps. simpl. now rewrite <- app_assoc.
  - intros ->. reflexivity.
  - intros ->. reflexivity.
  - intros ->. reflexivity.
Qed.

Lemma skipping_breadcrumbs_only_for_finalize_and_deploy_witness :
  finalizeRelease all_off service_up "v1" [] =
    (Normal tt,
     [AddBreadcrumb {| level := "info"; message := "Skipping release finalization." |};
      LoggerDebug "Skipping release finalization."]).
Proof.
  exact (proj1 (skipping_breadcrumbs_only_for_finalize_and_deploy
                  all_off service_up "v1" [] eq_refl eq_refl)).
Defined.

(** C8. A step that ran and completed normally ends by logging its success
    message at info level; the set-commits step adds no breadcrumb, every
    other step adds exactly one, an info breadcrumb with the same message. *)
Theorem success_breadcrumb_except_set_commits s options ctx releaseName :
  skipped s options = false ->
  step_completion s options ctx releaseName = Normal tt ->
  (exists before,
      step_events s options ctx releaseName = before ++ [LoggerInfo (success_message s)]) /\
  In (success_message s) (info_logs (step_events s options ctx releaseName)) /\
  breadcrumbs (step_events s options ctx releaseName) =
    match s with
    | Commits => []
    | _ => [{| level := "info"; message := success_message s |}]
    end.
Proof.
  intros Hskip Hok.
  destruct (not_skipped_request s options releaseName Hskip) as [rq Hrq].
  rewrite step_completion_table in Hok. rewrite step_events_table.
  unfold table_row in *. rewrite Hrq in *.
  destruct (cli ctx rq) as [e |]; [discriminate Hok |]. simpl snd.
  repeat split.
  - exists (SpanStart (span_name s) (telemetry ctx (span_name s)) ::
            announce_events s ++ [CliCall rq None] ++
            finish_events (telemetry ctx (span_name s)) ++
            removelast (success_events s)).
    destruct s; destruct (telemetry ctx _); reflexivity.
  - destruct s; destruct (telemetry ctx _); simpl; auto.
  - destruct s; destruct (telemetry ctx _); reflexivity.
Qed.

Lemma success_breadcrumb_except_set_commits_witness :
  breadcrumbs (step_events Commits all_on service_up "v1") = [] /\
  breadcrumbs (step_events Finalize all_on service_up "v1") =
    [{| level := "info"; message := "Successfully finalized release." |}].
Proof.
  split.
  - exact (proj2 (proj2 (success_breadcrumb_except_set_commits
                           Commits all_on service_up "v1" eq_refl eq_refl))).
  - exact (proj2 (proj2 (success_breadcrumb_except_set_commits
                           Finalize all_on service_up "v1" eq_refl eq_refl))).
Defined.

(** * Facts about the esbuild plugins *)

Import Esbuild.

(** ** Strings *)

Lemma string_app_assoc (a b c : string) : ((a ++ b) ++ c)%string = (a ++ b ++ c)%string.
Proof. induction a as [| ch a IH]; simpl; [reflexivity | now rewrite IH]. Qed.

Lemma string_app_inv_head (p a b : string) : (p ++ a)%string = (p ++ b)%string -> a = b.
Proof.
  induction p as [| ch p IH]; simpl; intro H; [exact H |].
  injection H as H. auto.
Qed.

(** ** Draws of the uuid generator *)

Lemma every_other_lower_bound d n x : In x (every_other d n) -> d <= x.
Proof.
  revert d. induction n as [| n IH]; simpl; intros d H; [contradiction |].
  destruct H as [<- | H]; [lia |]. apply IH in H. lia.
Qed.

Lemma every_other_NoDup d n : NoDup (every_other d n).
Proof.
  revert d. induction n as [| n IH]; simpl; intro d; constructor.
  - intro H. apply every_other_lower_bound in H. lia.
  - apply IH.
Qed.

Lemma collision_free_NoDup w l : collision_free w -> NoDup l -> NoDup (map (entropy w) l).
Proof.
  intros Hfree Hl. induction Hl as [| x l Hx Hl IH]; simpl; constructor; [| exact IH].
  intro H. apply in_map_iff in H. destruct H as [y [Hy Hin]].
  apply Hfree in Hy. subst y. contradiction.
Qed.

Lemma entry_instances_entries gds source d entries :
  map inst_entry (entry_instances gds source d entries) = entries.
Proof.
  revert d. induction entries as [| e rest IH]; simpl; intro d; [reflexivity |].
  now rewrite IH.
Qed.

Lemma entry_instances_contents gds source d entries :
  map inst_contents (entry_instances gds source d entries) =
  map (fun id => Some (gds id)) (map source (every_other (S d) (length entries))).
Proof.
  revert d. induction entries as [| e rest IH]; simpl; intro d; [reflexivity |].
  now rewrite IH.
Qed.

Lemma entry_instances_suffixes gds source d entries :
  map inst_suffix (entry_instances gds source d entries) =
  map (fun token => Some ("?sentry-module-id=" ++ token)%string)
    (map source (every_other d (length entries))).
Proof.
  revert d. induction entries as [| e rest IH]; simpl; intro d; [reflexivity |].
  now rewrite IH.
Qed.

Lemma suffixes_NoDup (tokens : list string) :
  NoDup tokens ->
  NoDup (map (fun token => Some ("?sentry-module-id=" ++ token)%string) tokens).
Proof.
  intro H. induction H as [| t l Ht Hl IH]; simpl; constructor; [| exact IH].
  intro Hin. apply in_map_iff in Hin. destruct Hin as [t' [Heq Hin']].
  assert (Heq' : ("?sentry-module-id=" ++ t')%string = ("?sentry-module-id=" ++ t)%string)
    by congruence.
  apply string_app_inv_head in Heq'. subst t'. contradiction.
Qed.

(** ** The hooks of the debug-id plugin, seen through the host *)

Lemma after_draws_compose j k w : after_draws j (after_draws k w) = after_draws (j + k) w.
Proof. unfold after_draws. simpl. f_equal. lia. Qed.

Lemma bundle_entry_debugId gds o dir entry w :
  bundle_entry (debugId_setup gds (new_build o)) dir entry w =
  (Normal (Some {| inst_entry := entry;
                   inst_suffix := Some ("?sentry-module-id=" ++ entropy w (drawn w))%string;
                   inst_contents := Some (gds (entropy w (S (drawn w)))) |}),
   after_draws 2 w).
Proof. reflexivity. Qed.

Lemma bundle_entries_debugId gds o dir entries w :
  bundle_entries (debugId_setup gds (new_build o)) dir entries w =
  (Normal (map Some (entry_instances gds (entropy w) (drawn w) entries)),
   after_draws (2 * length entries) w).
Proof.
  revert w. induction entries as [| e rest IH]; intro w.
  - destruct w; reflexivity.
  - cbn [bundle_entries]. unfold bind at 1. rewrite bundle_entry_debugId.
    unfold bind at 1. rewrite IH. unfold ret.
    rewrite after_draws_compose. cbn [length].
    replace (2 * length rest + 2) with (2 * S (length rest)) by lia.
    reflexivity.
Qed.

Lemma proxy_contents_layout originalPath :
  proxy_contents originalPath = layout (proxy_statements originalPath).
Proof.
  unfold proxy_contents, layout, proxy_statements, quoted. cbn [map String.concat].
  repeat rewrite string_app_assoc. reflexivity.
Qed.

(** ** The sample uuid source never repeats *)

Lemma sample_uuid_injective i j : sample_uuid i = sample_uuid j -> i = j.
Proof.
  revert j. induction i as [| i IH]; destruct j as [| j]; simpl; intro H;
    try reflexivity; try discriminate H.
  injection H as H. f_equal. auto.
Qed.

Lemma sample_world_collision_free : collision_free sample_world.
Proof. intros i j. apply sample_uuid_injective. Qed.

(** ** The claims about the esbuild plugins *)

(** C1. When the uuid source never repeats a value: every resolution of the
    injection stub returns the path with the suffix "?sentry-module-id=" and a
    uuid that was not generated before; every load of the stub returns the
    snippet of a uuid that was not generated before; and in a build each
    entry point gets a stub of its own, all suffixes and all debug
    identifiers pairwise distinct. *)
Theorem stub_resolutions_and_loads_draw_fresh_uuids gds (w : World) :
  collision_free w ->
  (forall args, exists token,
      debugId_onResolve_stub args w =
        (Normal (Some {| res_pluginName := Some debugId_pluginName;
                         res_path := Some (args_path args);
                         res_namespace := Some stubNamespace;
                         res_suffix := Some ("?sentry-module-id=" ++ token)%string;
                         res_sideEffects := Some true;
                         res_pluginData := None |}),
         after_draws 1 w) /\
      token = entropy w (drawn w) /\
      forall k, k < drawn w -> entropy w k <> token) /\
  (forall largs, exists debugId,
      debugId_onLoad_stub gds largs w =
        (Normal (Some {| out_loader := Some "js"%string;
                         out_pluginName := Some debugId_pluginName;
                         out_contents := Some (gds debugId);
                         out_resolveDir := None |}),
         after_draws 1 w) /\
      debugId = entropy w (drawn w) /\
      forall k, k < drawn w -> entropy w k <> debugId) /\
  (forall o dir entries, exists instances debugIds,
      bundle_entries (install (esbuildDebugIdInjectionPlugin gds) o) dir entries w =
        (Normal (map Some instances), after_draws (2 * length entries) w) /\
      map inst_entry instances = entries /\
      map inst_contents instances = map (fun id => Some (gds id)) debugIds /\
      NoDup debugIds /\
      NoDup (map inst_suffix instances)).
Proof.
  intro Hfree.
  assert (Hnew : forall k, k < drawn w -> entropy w k <> entropy w (drawn w)).
  { intros k Hk Heq. apply Hfree in Heq. lia. }
  split; [| split].
  - intro args. exists (entropy w (drawn w)).
    split; [reflexivity | split; [reflexivity | exact Hnew]].
  - intro largs. exists (entropy w (drawn w)).
    split; [reflexivity | split; [reflexivity | exact Hnew]].
  - intros o dir entries.
    exists (entry_instances gds (entropy w) (drawn w) entries),
      (map (entropy w) (every_other (S (drawn w)) (length entries))).
    split; [apply bundle_entries_debugId |].
    split; [apply entry_instances_entries |].
    split; [apply entry_instances_contents |].
    split.
    + apply collision_free_NoDup; [exact Hfree | apply every_other_NoDup].
    + rewrite entry_instances_suffixes. apply suffixes_NoDup.
      apply collision_free_NoDup; [exact Hfree | apply every_other_NoDup].
Qed.

Lemma stub_resolutions_and_loads_draw_fresh_uuids_witness :
  exists instances debugIds,
    bundle_entries (install (esbuildDebugIdInjectionPlugin sample_snippet) sample_build_options)
      "/work"%string ["src/a.js"; "src/b.js"]%string sample_world =
      (Normal (map Some instances), after_draws 4 sample_world) /\
    map inst_entry instances = ["src/a.js"; "src/b.js"]%string /\
    map inst_contents instances = map (fun id => Some (sample_snippet id)) debugIds /\
    NoDup debugIds /\
    NoDup (map inst_suffix instances).
Proof.
  exact (proj2 (proj2 (stub_resolutions_and_loads_draw_fresh_uuids
                         sample_snippet sample_world sample_world_collision_free))
           sample_build_options "/work"%string ["src/a.js"; "src/b.js"]%string).
Defined.

(** The hooks of the debug-id plugin on a resolution. It is redirected to
    the proxy namespace exactly when its kind is entry-point: the entry hook
    leaves every other resolution alone, and the only other resolutions the
    plugin answers are those of its own stub. The proxy module loaded for an
    entry has the four statements of the template, in their order, around
    the path as it was given, and resolves from the original directory. *)
Lemma entry_points_go_through_the_proxy gds o (args : OnResolveArgs) (w : World) :
  (args_kind args = entry_point ->
   run_onResolve (resolveCallbacks (install (esbuildDebugIdInjectionPlugin gds) o)) args w =
     (Normal (Some {| res_pluginName := Some debugId_pluginName;
                      res_path := Some (args_path args);
                      res_namespace := Some proxyNamespace;
                      res_suffix := None;
                      res_sideEffects := None;
                      res_pluginData :=
                        Some {| originalPath := args_path args;
                                originalResolveDir := args_resolveDir args |} |}),
      w) /\
   run_onLoad (loadCallbacks (install (esbuildDebugIdInjectionPlugin gds) o))
     {| load_path := args_path args;
        load_namespace := proxyNamespace;
        load_suffix := EmptyString;
        load_pluginData :=
          Some {| originalPath := args_path args;
                  originalResolveDir := args_resolveDir args |} |} w =
     (Normal (Some {| out_loader := Some "js"%string;
                      out_pluginName := Some debugId_pluginName;
                      out_contents := Some (layout (proxy_statements (args_path args)));
                      out_resolveDir := Some (args_resolveDir args) |}),
      w)) /\
  (args_kind args <> entry_point ->
   debugId_onResolve_entry args w = (Normal None, w) /\
   (includes "_sentry-debug-id-injection-stub" (args_path args) = false ->
    run_onResolve (resolveCallbacks (install (esbuildDebugIdInjectionPlugin gds) o)) args w =
      (Normal None, w)) /\
   (includes "_sentry-debug-id-injection-stub" (args_path args) = true ->
    run_onResolve (resolveCallbacks (install (esbuildDebugIdInjectionPlugin gds) o)) args w =
      debugId_onResolve_stub args w)).
Proof.
  split.
  - intro Hkind. split.
    + cbn. unfold debugId_onResolve_entry, bind, ret. rewrite Hkind. reflexivity.
    + rewrite <- proxy_contents_layout. reflexivity.
  - intro Hkind.
    assert (Hentry : debugId_onResolve_entry args w = (Normal None, w)).
    { unfold debugId_onResolve_entry. destruct (args_kind args); try reflexivity.
      now contradiction Hkind. }
    split; [exact Hentry |].
    split; intro Hpath; cbn; unfold bind at 1; rewrite Hentry;
      unfold hook_matches; cbn [hook_filter hook_namespace filter_test];
      rewrite Hpath; cbn [andb].
    + reflexivity.
    + reflexivity.
Qed.

(** C2. The entry hook and the proxy hook at an entry point given by a
    Windows path: the resolution is redirected to the proxy, and the proxy
    module has the four statements in their order, but the path stands in
    them between double quotes as it was given, so that its backslashes are
    read as escapes: both specifiers denote another path than the original
    one (here with a line feed for the backslash and the "n"), and the proxy
    module does not import the original module. *)
Theorem proxy_source_misreads_a_windows_path :
  run_onResolve
    (resolveCallbacks
       (install (esbuildDebugIdInjectionPlugin sample_snippet) sample_build_options))
    windows_entry_args sample_world =
    (Normal (Some {| res_pluginName := Some debugId_pluginName;
                     res_path := Some windows_entry;
                     res_namespace := Some proxyNamespace;
                     res_suffix := None;
                     res_sideEffects := None;
                     res_pluginData :=
                       Some {| originalPath := windows_entry;
                               originalResolveDir := "C:\work" |} |}),
     sample_world) /\
  run_onLoad
    (loadCallbacks
       (install (esbuildDebugIdInjectionPlugin sample_snippet) sample_build_options))
    {| load_path := windows_entry;
       load_namespace := proxyNamespace;
       load_suffix := EmptyString;
       load_pluginData :=
         Some {| originalPath := windows_entry; originalResolveDir := "C:\work" |} |}
    sample_world =
    (Normal (Some {| out_loader := Some "js"%string;
                     out_pluginName := Some debugId_pluginName;
                     out_contents := Some (layout (proxy_statements windows_entry));
                     out_resolveDir := Some "C:\work"%string |}),
     sample_world) /\
  map module_specifier (proxy_statements windows_entry) =
    [Some "_sentry-debug-id-injection-stub"%string;
     Some ("C:worksrc" ++ newline ++ "ew.js")%string;
     None;
     Some ("C:worksrc" ++ newline ++ "ew.js")%string] /\
  ("C:worksrc" ++ newline ++ "ew.js")%string <> windows_entry.
Proof.
  split; [reflexivity |].
  split; [reflexivity |].
  split; [reflexivity | discriminate].
Qed.

(** C5. The end-of-build callback calls [upload] exactly once, with the keys
    of the manifest's outputs in their order when the result has a manifest
    and with the empty list when it has none, and completes as [upload] does:
    an error of [upload] is thrown on. The plugin registers this one callback
    and no other. *)
Theorem upload_called_once_with_output_paths upload (result : BuildResult) (w : World) :
  (forall m,
      result_metafile result = Some m ->
      debugIdUpload_onEnd upload result w =
        (match upload (map fst (outputs m)) with
         | None => Normal tt
         | Some e => Throw e
         end,
         {| entropy := entropy w; drawn := drawn w;
            uploads := uploads w ++ [map fst (outputs m)] |})) /\
  (result_metafile result = None ->
   debugIdUpload_onEnd upload result w =
     (match upload [] with
      | None => Normal tt
      | Some e => Throw e
      end,
      {| entropy := entropy w; drawn := drawn w; uploads := uploads w ++ [[]] |})) /\
  length (uploads (snd (debugIdUpload_onEnd upload result w))) = S (length (uploads w)) /\
  (forall b,
      endCallbacks (esbuild_setup (esbuildDebugIdUploadPlugin upload) b) =
      endCallbacks b ++ [debugIdUpload_onEnd upload]) /\
  (forall errors ins a b,
      result = {| result_errors := errors;
                  result_metafile :=
                    Some {| inputs := ins;
                            outputs := [("a.js"%string, a); ("b.js"%string, b)] |} |} ->
      uploads (snd (debugIdUpload_onEnd upload result w)) =
      uploads w ++ [["a.js"; "b.js"]%string]).
Proof.
  unfold debugIdUpload_onEnd, call_upload, Object_keys, bind, modify, ret, throw.
  repeat split.
  - intros m ->. destruct (upload (map fst (outputs m))); reflexivity.
  - intros ->. destruct (upload []); reflexivity.
  - destruct (result_metafile result) as [m |];
      match goal with |- context [upload ?l] => destruct (upload l) end;
      simpl; rewrite length_app; simpl; lia.
  - intros errors ins a b ->. simpl.
    destruct (upload ["a.js"%string; "b.js"%string]); reflexivity.
Qed.

(** C9. The release injection resolves its stub to the path it was asked
    for, with no suffix and no namespace, and loads the injection code it was
    created with, whatever the arguments and the state of the world, which it
    leaves as it was: any two loads return the same module. The stub hook of
    the debug-id plugin, in contrast, sets a suffix and draws a uuid. *)
Theorem release_injection_is_one_shared_module pr (injectionCode : string) :
  (forall args w,
      releaseInjection_onResolve args w =
        (Normal (Some {| res_pluginName := Some "sentry-esbuild-release-injection-plugin"%string;
                         res_path := Some (args_path args);
                         res_namespace := None;
                         res_suffix := None;
                         res_sideEffects := Some true;
                         res_pluginData := None |}),
         w)) /\
  (forall largs w,
      releaseInjection_onLoad injectionCode largs w =
        (Normal (Some {| out_loader := Some "js"%string;
                         out_pluginName :=
                           Some "sentry-esbuild-release-injection-plugin"%string;
                         out_contents := Some injectionCode;
                         out_resolveDir := None |}),
         w)) /\
  (forall largs1 largs2 w1 w2,
      fst (releaseInjection_onLoad injectionCode largs1 w1) =
      fst (releaseInjection_onLoad injectionCode largs2 w2)) /\
  (forall o,
      resolveCallbacks (install (esbuildReleaseInjectionPlugin pr injectionCode) o) =
        [({| hook_filter := MatchLiteral "_sentry-release-injection-stub";
             hook_namespace := None |}, releaseInjection_onResolve)] /\
      loadCallbacks (install (esbuildReleaseInjectionPlugin pr injectionCode) o) =
        [({| hook_filter := MatchLiteral "_sentry-release-injection-stub";
             hook_namespace := None |}, releaseInjection_onLoad injectionCode)]) /\
  (forall args w,
      exists r,
        fst (debugId_onResolve_stub args w) = Normal (Some r) /\
        res_suffix r = Some ("?sentry-module-id=" ++ entropy w (drawn w))%string /\
        drawn (snd (debugId_onResolve_stub args w)) = S (drawn w)).
Proof.
  split; [| split; [| split; [| split]]].
  - intros args w. reflexivity.
  - intros largs w. reflexivity.
  - intros largs1 largs2 w1 w2. reflexivity.
  - intro o. split; reflexivity.
  - intros args w. eexists. split; [reflexivity |]. split; reflexivity.
Qed.

(** C10. The setup of the upload plugin sets [metafile] to true whatever it
    was, and leaves the other options alone; when the finished build has a
    manifest, the callback uploads its output paths, so the empty list of the
    fallback is passed only for a result without manifest. The setup of the
    release injection appends its stub path to [inject], after all entries
    that were there, starting from the empty array when there was none, and
    leaves the other options alone. *)
Theorem setup_requests_metafile_and_extends_inject pr injectionCode upload (b : PluginBuild) :
  metafile (options_after (esbuildDebugIdUploadPlugin upload) b) = Some true /\
  (entryPoints (options_after (esbuildDebugIdUploadPlugin upload) b) =
     entryPoints (initialOptions b) /\
   bundle (options_after (esbuildDebugIdUploadPlugin upload) b) = bundle (initialOptions b) /\
   outdir (options_after (esbuildDebugIdUploadPlugin upload) b) = outdir (initialOptions b) /\
   inject (options_after (esbuildDebugIdUploadPlugin upload) b) = inject (initialOptions b)) /\
  (forall result m w,
      result_metafile result = Some m ->
      uploads (snd (debugIdUpload_onEnd upload result w)) =
      uploads w ++ [map fst (outputs m)]) /\
  inject (options_after (esbuildReleaseInjectionPlugin pr injectionCode) b) =
    Some (match inject (initialOptions b) with
          | Some existing => existing
          | None => []
          end ++ [pr "_sentry-release-injection-stub"%string]) /\
  (forall existing p,
      inject (initialOptions b) = Some existing ->
      In p existing ->
      exists extended,
        inject (options_after (esbuildReleaseInjectionPlugin pr injectionCode) b) =
          Some extended /\
        In p extended /\
        length extended = S (length existing)) /\
  (entryPoints (options_after (esbuildReleaseInjectionPlugin pr injectionCode) b) =
     entryPoints (initialOptions b) /\
   bundle (options_after (esbuildReleaseInjectionPlugin pr injectionCode) b) =
     bundle (initialOptions b) /\
   outdir (options_after (esbuildReleaseInjectionPlugin pr injectionCode) b) =
     outdir (initialOptions b) /\
   metafile (options_after (esbuildReleaseInjectionPlugin pr injectionCode) b) =
     metafile (initialOptions b)).
Proof.
  split; [reflexivity |].
  split; [repeat split |].
  split.
  { intros result m w Hm.
    unfold debugIdUpload_onEnd, call_upload, Object_keys, bind, modify. rewrite Hm.
    destruct (upload (map fst (outputs m))); reflexivity. }
  split; [reflexivity |].
  split; [| repeat split].
  intros existing p Hexisting Hin.
  exists (existing ++ [pr "_sentry-release-injection-stub"%string]).
  split.
  - cbn. unfold virtualReleaseInjectionFilePath. now rewrite Hexisting.
  - split.
    + apply in_or_app. now left.
    + rewrite length_app. simpl. lia.
Qed.

(** ** Runs on the sample hosts *)

Example two_entries_two_debug_ids :
  bundle_entries (install (esbuildDebugIdInjectionPlugin sample_snippet) sample_build_options)
    "/work"%string (entryPoints sample_build_options) sample_world =
  (Normal [Some {| inst_entry := "src/a.js"%string;
                   inst_suffix := Some "?sentry-module-id=0"%string;
                   inst_contents := Some "sentry-dbid-10"%string |};
           Some {| inst_entry := "src/b.js"%string;
                   inst_suffix := Some "?sentry-module-id=110"%string;
                   inst_contents := Some "sentry-dbid-1110"%string |}],
   after_draws 4 sample_world).
Proof. reflexivity. Qed.

Example manifest_outputs_are_uploaded :
  debugIdUpload_onEnd (fun _ => None)
    {| result_errors := []; result_metafile := Some sample_metafile |} sample_world =
  (Normal tt,
   {| entropy := sample_uuid; drawn := 0; uploads := [["a.js"; "b.js"]%string] |}).
Proof. reflexivity. Qed.

Example upload_error_fails_the_build :
  fst (debugIdUpload_onEnd (fun _ => Some (Error "upload failed"))
         {| result_errors := []; result_metafile := None |} sample_world) =
  Throw (Error "upload failed").
Proof. reflexivity. Qed.

Example release_stub_joins_inject :
  inject (options_after (esbuildReleaseInjectionPlugin sample_path_resolve "code")
            (new_build sample_build_options)) =
  Some ["shim.js"; "/work/_sentry-release-injection-stub"]%string.
Proof. reflexivity. Qed.

Example stub_name_inside_a_path_matches :
  includes "_sentry-debug-id-injection-stub"
    "/work/_sentry-debug-id-injection-stub?x" = true /\
  includes "_sentry-debug-id-injection-stub" "src/a.js" = false.
Proof. split; reflexivity. Qed.

Example upload_step_success_trace :
  run_step Upload all_on service_up "v1" [] =
  (Normal tt,
   [SpanStart "function.plugin.upload_sourcemaps"
      (Some {| span_op := "function.plugin.upload_sourcemaps" |});
    LoggerInfo "Uploading Sourcemaps.";
    CliCall (ReleasesUploadSourceMaps "v1"
               {| upload_include := ["dist"]; upload_dist := Some "1" |}) None;
    SpanFinish {| span_op := "function.plugin.upload_sourcemaps" |};
    AddBreadcrumb {| level := "info"; message := "Successfully uploaded source maps." |};
    LoggerInfo "Successfully uploaded source maps."]%string).
Proof. reflexivity. Qed.

Example deploy_step_failure_trace :
  run_step Deploy all_on service_down "v1" [] =
  (Throw (Error "connect ECONNREFUSED"),
   [SpanStart "function.plugin.deploy" (Some {| span_op := "function.plugin.deploy" |});
    CliCall (ReleasesNewDeploy "v1"
               {| env := "production"; started := None; finished := None; time := None;
                  name := None; url := None |})
      (Some (Error "connect ECONNREFUSED"));
    CaptureException (Error "CLI Error: Adding deploy info failed");
    SpanFinish {| span_op := "function.plugin.deploy" |}]%string).
Proof. reflexivity. Qed.

Example clean_step_skipped_trace :
  run_step Clean all_off service_down "v1" [] =
  (Normal tt, [LoggerDebug "Skipping artifact cleanup."]).
Proof. reflexivity. Qed.

(** * Further facts about the release lifecycle steps *)

Lemma appends_run_steps steps options ctx releaseName :
  appends (run_steps steps options ctx releaseName).
Proof.
  induction steps as [| s rest IH]; simpl.
  - apply appends_ret.
  - apply appends_bind; [apply appends_run_step | intros _; exact IH].
Qed.

Lemma run_steps_cons s rest options ctx releaseName tr0 :
  run_steps (s :: rest) options ctx releaseName tr0 =
  match step_completion s options ctx releaseName with
  | Normal _ =>
      run_steps rest options ctx releaseName (tr0 ++ step_events s options ctx releaseName)
  | Throw e => (Throw e, tr0 ++ step_events s options ctx releaseName)
  end.
Proof.
  cbn [run_steps]. unfold bind. rewrite run_step_frame.
  destruct (step_completion s options ctx releaseName); reflexivity.
Qed.

(** The row of the table for each outcome. *)
Lemma table_row_cases s options ctx releaseName :
  (step_request s options releaseName = None /\
   table_row s options ctx releaseName = (Normal tt, skip_events s)) \/
  (exists rq,
      step_request s options releaseName = Some rq /\ cli ctx rq = None /\
      table_row s options ctx releaseName =
        (Normal tt,
         SpanStart (span_name s) (telemetry ctx (span_name s)) :: announce_events s ++
         [CliCall rq None] ++ finish_events (telemetry ctx (span_name s)) ++
         success_events s)) \/
  (exists rq e,
      step_request s options releaseName = Some rq /\ cli ctx rq = Some e /\
      table_row s options ctx releaseName =
        (Throw e,
         SpanStart (span_name s) (telemetry ctx (span_name s)) :: announce_events s ++
         [CliCall rq (Some e); CaptureException (failure_error s)] ++
         finish_events (telemetry ctx (span_name s)))).
Proof.
  unfold table_row.
  destruct (step_request s options releaseName) as [rq |]; [| left; split; reflexivity].
  right. destruct (cli ctx rq) as [e |] eqn:E.
  - right. exists rq, e. repeat split; assumption.
  - left. exists rq. repeat split; assumption.
Qed.

(** X1. A step throws only what the service rejected its request with: it
    completes by throwing [e] exactly when its trace holds an external call
    rejected with [e], it captures an exception exactly when it throws, and
    with a service that resolves every request it completes normally. *)
Theorem step_throws_only_the_service_error s options ctx releaseName :
  (forall e,
      step_completion s options ctx releaseName = Throw e <->
      exists rq, In (CliCall rq (Some e)) (step_events s options ctx releaseName)) /\
  (step_completion s options ctx releaseName = Normal tt <->
   captured (step_events s options ctx releaseName) = []) /\
  ((forall rq, cli ctx rq = None) ->
   step_completion s options ctx releaseName = Normal tt).
Proof.
  rewrite step_completion_table, step_events_table.
  destruct (table_row_cases s options ctx releaseName)
    as [[Hrq Hrow] | [(rq & Hrq & Hcli & Hrow) | (rq & e0 & Hrq & Hcli & Hrow)]];
    rewrite Hrow; cbn [fst snd].
  - split; [| split].
    + intro e. split; [discriminate |].
      intros [rq H]. destruct s; simpl in H;
        repeat (destruct H as [H | H]; try discriminate H); contradiction.
    + split; [intros _; destruct s; reflexivity | reflexivity].
    + reflexivity.
  - split; [| split].
    + intro e. split; [discriminate |].
      intros [rq' H].
      destruct (telemetry ctx (span_name s)); destruct s; simpl in H;
        repeat (destruct H as [H | H]; try discriminate H); contradiction.
    + split; [| reflexivity].
      intros _. destruct (telemetry ctx (span_name s)); destruct s; reflexivity.
    + reflexivity.
  - split; [| split].
    + intro e. split.
      * intro H. injection H as <-. exists rq.
        apply in_cons, in_or_app. right. now left.
      * intros [rq' H].
        destruct (telemetry ctx (span_name s)); destruct s; simpl in H;
          repeat (destruct H as [H | H]; try discriminate H); try contradiction;
          injection H as _ <-; reflexivity.
    + split; [discriminate |].
      destruct (telemetry ctx (span_name s)); destruct s; discriminate.
    + intro Hall. rewrite Hall in Hcli. discriminate Hcli.
Qed.

(** X2. The set-commits step sends the [setCommits] option object to the
    service field for field, the add-deploy step the [deploy] object, and the
    upload step [include] and [dist]; each for the release it was given, in
    one call. *)
Theorem option_objects_are_passed_unchanged options ctx releaseName :
  (forall sc,
      options_setCommits options = Some sc ->
      cli_calls (step_events Commits options ctx releaseName) =
        [ReleasesSetCommits releaseName sc]) /\
  (forall d,
      options_deploy options = Some d ->
      cli_calls (step_events Deploy options ctx releaseName) =
        [ReleasesNewDeploy releaseName d]) /\
  (options_uploadSourceMaps options = true ->
   cli_calls (step_events Upload options ctx releaseName) =
     [ReleasesUploadSourceMaps releaseName
        {| upload_include := options_include options;
           upload_dist := options_dist options |}]).
Proof.
  split; [| split].
  - intros sc Hsc.
    destruct (requested_call_is_made Commits options ctx releaseName
                (ReleasesSetCommits releaseName sc)) as [Hcalls _]; [| exact Hcalls].
    simpl. rewrite Hsc. destruct sc; reflexivity.
  - intros d Hd.
    destruct (requested_call_is_made Deploy options ctx releaseName
                (ReleasesNewDeploy releaseName d)) as [Hcalls _]; [| exact Hcalls].
    simpl. rewrite Hd. destruct d; reflexivity.
  - intro Hflag.
    apply (requested_call_is_made Upload options ctx releaseName).
    simpl. now rewrite Hflag.
Qed.

(** X3. Whatever the options and the service, a step contacts the service at
    most once, and only about the release it was given. *)
Theorem step_calls_at_most_once_for_its_release s options ctx releaseName :
  length (cli_calls (step_events s options ctx releaseName)) <= 1 /\
  (forall rq,
      In rq (cli_calls (step_events s options ctx releaseName)) ->
      request_release rq = Some releaseName).
Proof.
  destruct (step_request s options releaseName) as [rq0 |] eqn:Hrq.
  - destruct (requested_call_is_made s options ctx releaseName rq0 Hrq) as [Hcalls _].
    rewrite Hcalls. split; [simpl; lia |].
    intros rq [<- | []].
    destruct s; simpl in Hrq;
      try destruct (options_cleanArtifacts options);
      try destruct (options_uploadSourceMaps options);
      try destruct (options_setCommits options);
      try destruct (options_finalize options);
      try destruct (options_deploy options);
      try discriminate Hrq; injection Hrq as <-; reflexivity.
  - rewrite step_events_table. unfold table_row. rewrite Hrq. cbn [snd].
    destruct s; simpl; split; try lia; intros rq [].
Qed.

(** X4. Every breadcrumb a step adds has level "info" and is followed at once
    by a log line with the same message. *)
Theorem breadcrumb_is_followed_by_its_log_line s options ctx releaseName b :
  In (AddBreadcrumb b) (step_events s options ctx releaseName) ->
  level b = "info" /\
  exists before after line,
    step_events s options ctx releaseName = before ++ AddBreadcrumb b :: line :: after /\
    (line = LoggerInfo (message b) \/ line = LoggerDebug (message b)).
Proof.
  rewrite step_events_table.
  destruct (table_row_cases s options ctx releaseName)
    as [[Hrq Hrow] | [(rq & Hrq & Hcli & Hrow) | (rq & e0 & Hrq & Hcli & Hrow)]];
    rewrite Hrow; cbn [snd]; intro Hin.
  - destruct s; simpl in Hin;
      repeat (destruct Hin as [Hin | Hin]; try discriminate Hin); try contradiction;
      injection Hin as <-; (split; [reflexivity |]);
      exists [], []; eexists; (split; [reflexivity | right; reflexivity]).
  - assert (Hb : In (AddBreadcrumb b) (success_events s)).
    { destruct (telemetry ctx (span_name s)); destruct s; simpl in Hin;
        repeat (destruct Hin as [Hin | Hin]; try discriminate Hin); try contradiction;
        injection Hin as <-; simpl; auto. }
    assert (Hs : success_events s = [AddBreadcrumb b; LoggerInfo (message b)] /\
                 level b = "info").
    { destruct s; simpl in Hb;
        repeat (destruct Hb as [Hb | Hb]; try discriminate Hb); try contradiction;
        injection Hb as <-; split; reflexivity. }
    destruct Hs as [Hs Hlevel]. split; [exact Hlevel |].
    exists (SpanStart (span_name s) (telemetry ctx (span_name s)) :: announce_events s ++
            [CliCall rq None] ++ finish_events (telemetry ctx (span_name s))),
      [], (LoggerInfo (message b)).
    split; [| left; reflexivity].
    rewrite Hs. cbn [app]. rewrite <- !app_assoc. reflexivity.
  - exfalso.
    destruct (telemetry ctx (span_name s)); destruct s; simpl in Hin;
      repeat (destruct Hin as [Hin | Hin]; try discriminate Hin); contradiction.
Qed.

Lemma breadcrumb_is_followed_by_its_log_line_witness :
  level {| level := "info"; message := "Skipping release finalization." |} = "info".
Proof.
  refine (proj1 (breadcrumb_is_followed_by_its_log_line Finalize all_off service_up "v1"
                   {| level := "info"; message := "Skipping release finalization." |} _)).
  simpl. left. reflexivity.
Defined.

(** ** Sequences of steps *)

Lemma step_spans_balanced s options ctx releaseName :
  started_spans (step_events s options ctx releaseName) =
  finished_spans (step_events s options ctx releaseName).
Proof.
  rewrite step_events_table.
  destruct (table_row_cases s options ctx releaseName)
    as [[Hrq Hrow] | [(rq & Hrq & Hcli & Hrow) | (rq & e0 & Hrq & Hcli & Hrow)]];
    rewrite Hrow; cbn [snd];
    destruct (telemetry ctx (span_name s)); destruct s; reflexivity.
Qed.

Lemma step_captured_cases s options ctx releaseName :
  (step_completion s options ctx releaseName = Normal tt /\
   captured (step_events s options ctx releaseName) = []) \/
  (exists e,
      step_completion s options ctx releaseName = Throw e /\
      captured (step_events s options ctx releaseName) = [failure_error s]).
Proof.
  rewrite step_completion_table, step_events_table.
  destruct (table_row_cases s options ctx releaseName)
    as [[Hrq Hrow] | [(rq & Hrq & Hcli & Hrow) | (rq & e0 & Hrq & Hcli & Hrow)]];
    rewrite Hrow; cbn [fst snd].
  - left. split; [reflexivity | destruct s; reflexivity].
  - left. split; [reflexivity |].
    destruct (telemetry ctx (span_name s)); destruct s; reflexivity.
  - right. exists e0. split; [reflexivity |].
    destruct (telemetry ctx (span_name s)); destruct s; reflexivity.
Qed.

Lemma run_steps_from_empty s rest options ctx releaseName :
  run_steps (s :: rest) options ctx releaseName [] =
  match step_completion s options ctx releaseName with
  | Normal _ =>
      (fst (run_steps rest options ctx releaseName []),
       step_events s options ctx releaseName ++
       snd (run_steps rest options ctx releaseName []))
  | Throw e => (Throw e, step_events s options ctx releaseName)
  end.
Proof.
  rewrite run_steps_cons. cbn [app].
  destruct (step_completion s options ctx releaseName); [| reflexivity].
  apply appends_run_steps.
Qed.

Lemma step_outcome_of_request s options ctx releaseName :
  (step_completion s options ctx releaseName,
   cli_calls (step_events s options ctx releaseName)) =
  match step_request s options releaseName with
  | None => (Normal tt, [])
  | Some rq =>
      (match cli ctx rq with Some e => Throw e | None => Normal tt end, [rq])
  end.
Proof.
  rewrite step_completion_table, step_events_table.
  destruct (table_row_cases s options ctx releaseName)
    as [[Hrq Hrow] | [(rq & Hrq & Hcli & Hrow) | (rq & e0 & Hrq & Hcli & Hrow)]];
    rewrite Hrow, Hrq; try rewrite Hcli; cbn [fst snd]; f_equal;
    try destruct (telemetry ctx (span_name s)); destruct s; reflexivity.
Qed.

(** X5. When the steps are awaited one after the other, the service is sent
    the requests of the enabled steps, in order, up to and including the
    first one it rejects, and nothing after it; the sequence throws that
    first rejection, and completes normally when no request is rejected. *)
Theorem sequence_calls_stop_at_first_rejection steps options ctx releaseName :
  (fst (run_steps steps options ctx releaseName []),
   cli_calls (snd (run_steps steps options ctx releaseName []))) =
  sequence_outcome steps options ctx releaseName.
Proof.
  induction steps as [| s rest IH]; [reflexivity |].
  rewrite run_steps_from_empty. cbn [sequence_outcome].
  pose proof (step_outcome_of_request s options ctx releaseName) as Hstep.
  destruct (step_request s options releaseName) as [rq |].
  - destruct (cli ctx rq) as [e |]; injection Hstep as Hc Hcalls; rewrite Hc.
    + cbn [fst snd]. now rewrite Hcalls.
    + cbn [fst snd]. unfold cli_calls in *. rewrite flat_map_app, Hcalls.
      rewrite <- IH. reflexivity.
  - injection Hstep as Hc Hcalls. rewrite Hc. cbn [fst snd].
    unfold cli_calls in *. rewrite flat_map_app, Hcalls. exact IH.
Qed.

Example delete_rejected_ends_the_release :
  sequence_outcome [Create; Clean; Upload; Commits; Finalize; Deploy] all_on
    delete_forbidden "v1" =
  (Throw (Error "403"),
   [ReleasesNew "v1";
    ReleasesExecute ["releases"; "files"; "v1"; "delete"; "--all"] true]).
Proof. reflexivity. Qed.

(** X6. Whatever steps are awaited in sequence, with whatever options and
    service: every span that was started is finished, also when a step throws
    and the rest is abandoned; at most one exception is captured; and the
    sequence completes normally exactly when none is. *)
Theorem sequence_leaves_no_open_span steps options ctx releaseName :
  started_spans (snd (run_steps steps options ctx releaseName [])) =
    finished_spans (snd (run_steps steps options ctx releaseName [])) /\
  length (captured (snd (run_steps steps options ctx releaseName []))) <= 1 /\
  (fst (run_steps steps options ctx releaseName []) = Normal tt <->
   captured (snd (run_steps steps options ctx releaseName [])) = []).
Proof.
  induction steps as [| s rest [IHspans [IHlen IHiff]]].
  - simpl. repeat split; auto.
  - rewrite run_steps_from_empty.
    pose proof (step_spans_balanced s options ctx releaseName) as Hbal.
    destruct (step_captured_cases s options ctx releaseName)
      as [[Hok Hcap] | [e [Hthrow Hcap]]].
    + rewrite Hok. cbn [fst snd].
      unfold started_spans, finished_spans, captured in *.
      rewrite !flat_map_app, Hbal, IHspans, Hcap. cbn [app].
      repeat split; tauto.
    + rewrite Hthrow. cbn [fst snd]. rewrite Hcap.
      repeat split; try discriminate; auto.
Qed.

(** * Further facts about the esbuild plugins *)

(** ** The filters *)

Lemma prefix_spec (a s : string) :
  String.prefix a s = true <-> exists post, s = (a ++ post)%string.
Proof.
  revert s. induction a as [| c a IH]; intro s.
  - split; [intros _; now exists s | intros _; destruct s; reflexivity].
  - destruct s as [| c' s]; simpl.
    + split; [discriminate | intros [post H]; discriminate H].
    + destruct (Ascii.ascii_dec c c') as [<- | Hne].
      * rewrite IH. split; intros [post H]; exists post.
        -- now rewrite H.
        -- now injection H.
      * split; [discriminate |].
        intros [post H]. injection H as H _. congruence.
Qed.

Lemma includes_spec (needle s : string) :
  includes needle s = true <-> exists pre post, s = (pre ++ needle ++ post)%string.
Proof.
  induction s as [| c s IH].
  - cbn [includes]. rewrite orb_false_r, prefix_spec. split.
    + intros [post H]. now exists EmptyString, post.
    + intros [pre [post H]]. destruct pre as [| c pre]; [now exists post | discriminate H].
  - cbn [includes]. rewrite orb_true_iff, prefix_spec, IH. split.
    + intros [[post H] | [pre [post H]]].
      * now exists EmptyString, post.
      * exists (String c pre), post. simpl. now rewrite H.
    + intros [pre [post H]]. destruct pre as [| c' pre].
      * left. now exists post.
      * right. injection H as _ H. now exists pre, post.
Qed.

(** X7. The stub hooks are not anchored to a file name. The release
    injection answers a resolution exactly when the path contains the name of
    the release stub somewhere, and the debug-id plugin answers a resolution
    that is no entry point exactly when the path contains the name of the
    debug-id stub; so absolute and suffixed paths are answered, and so is any
    other file whose name contains the stub name. *)
Theorem stub_hooks_answer_paths_containing_the_stub_name pr injectionCode gds o
    (args : OnResolveArgs) (w : World) :
  ((exists r,
       run_onResolve
         (resolveCallbacks (install (esbuildReleaseInjectionPlugin pr injectionCode) o))
         args w = (Normal (Some r), w)) <->
   (exists before after,
       args_path args = (before ++ "_sentry-release-injection-stub" ++ after)%string)) /\
  (args_kind args <> entry_point ->
   ((exists r w',
        run_onResolve (resolveCallbacks (install (esbuildDebugIdInjectionPlugin gds) o))
          args w = (Normal (Some r), w')) <->
    (exists before after,
        args_path args = (before ++ "_sentry-debug-id-injection-stub" ++ after)%string))).
Proof.
  split.
  - rewrite <- includes_spec.
    change (resolveCallbacks (install (esbuildReleaseInjectionPlugin pr injectionCode) o))
      with [({| hook_filter := MatchLiteral "_sentry-release-injection-stub";
                hook_namespace := None |}, releaseInjection_onResolve)].
    cbn [run_onResolve]. unfold hook_matches. cbn [hook_filter hook_namespace filter_test].
    destruct (includes "_sentry-release-injection-stub" (args_path args)).
    + split; [reflexivity |]. intros _. eexists. reflexivity.
    + split; [| discriminate]. intros [r H]. discriminate H.
  - intro Hkind. rewrite <- includes_spec.
    assert (Hentry : debugId_onResolve_entry args w = (Normal None, w)).
    { unfold debugId_onResolve_entry. destruct (args_kind args); try reflexivity.
      now contradiction Hkind. }
    cbn. unfold bind at 1. rewrite Hentry.
    unfold hook_matches. cbn [hook_filter hook_namespace filter_test].
    destruct (includes "_sentry-debug-id-injection-stub" (args_path args)).
    + split; [reflexivity |]. intros _. eexists. eexists. reflexivity.
    + split; [| discriminate]. intros (r & w' & H). discriminate H.
Qed.

(** ** What the debug-id plugin leaves alone *)

Lemma run_onLoad_skip o cb rest (largs : OnLoadArgs) :
  hook_matches o (load_path largs) (load_namespace largs) = false ->
  run_onLoad ((o, cb) :: rest) largs = run_onLoad rest largs.
Proof. intro H. cbn [run_onLoad]. now rewrite H. Qed.

Lemma run_onResolve_skip o cb rest (args : OnResolveArgs) :
  hook_matches o (args_path args) (args_namespace args) = false ->
  run_onResolve ((o, cb) :: rest) args = run_onResolve rest args.
Proof. intro H. cbn [run_onResolve]. now rewrite H. Qed.

Lemma namespace_mismatch filter ns path namespace :
  namespace <> ns ->
  hook_matches {| hook_filter := filter; hook_namespace := Some ns |} path namespace = false.
Proof.
  intro H. unfold hook_matches. cbn [hook_namespace].
  destruct (String.eqb_spec ns namespace) as [-> | _]; [now contradiction H |].
  apply andb_false_r.
Qed.

(** X8. The debug-id plugin loads modules of its two namespaces only: a load
    in any other namespace (the files of the project among them) is left to
    the host, also when the path contains the stub name, and so is a load in
    the stub namespace of a path without the stub name. No uuid is drawn. *)
Theorem debugId_plugin_loads_only_its_namespaces gds o (largs : OnLoadArgs) (w : World) :
  load_namespace largs <> proxyNamespace ->
  load_namespace largs <> stubNamespace \/
    includes "_sentry-debug-id-injection-stub" (load_path largs) = false ->
  run_onLoad (loadCallbacks (install (esbuildDebugIdInjectionPlugin gds) o)) largs w =
    (Normal None, w).
Proof.
  intros Hproxy Hstub.
  change (loadCallbacks (install (esbuildDebugIdInjectionPlugin gds) o)) with
    [({| hook_filter := MatchAny; hook_namespace := Some proxyNamespace |},
      debugId_onLoad_proxy);
     ({| hook_filter := MatchLiteral "_sentry-debug-id-injection-stub";
         hook_namespace := Some stubNamespace |}, debugId_onLoad_stub gds)].
  rewrite run_onLoad_skip by (apply namespace_mismatch; exact Hproxy).
  rewrite run_onLoad_skip; [reflexivity |].
  destruct Hstub as [Hns | Hpath].
  - apply namespace_mismatch; exact Hns.
  - unfold hook_matches. cbn [hook_filter filter_test]. now rewrite Hpath.
Qed.

Lemma debugId_plugin_loads_only_its_namespaces_witness :
  run_onLoad
    (loadCallbacks (install (esbuildDebugIdInjectionPlugin sample_snippet)
                      sample_build_options))
    {| load_path := "/work/src/_sentry-debug-id-injection-stub.js";
       load_namespace := "file";
       load_suffix := EmptyString;
       load_pluginData := None |} sample_world =
  (Normal None, sample_world).
Proof.
  apply debugId_plugin_loads_only_its_namespaces.
  - discriminate.
  - left. discriminate.
Defined.

(** X9. A load in the proxy namespace that carries no plugin data fails: the
    proxy hook reads [originalPath] of [undefined] and throws, whatever the
    path; the world is left as it was. *)
Theorem proxy_load_without_plugin_data_throws gds o (largs : OnLoadArgs) (w : World) :
  load_namespace largs = proxyNamespace ->
  load_pluginData largs = None ->
  exists e,
    run_onLoad (loadCallbacks (install (esbuildDebugIdInjectionPlugin gds) o)) largs w =
      (Throw e, w).
Proof.
  intros Hns Hdata. eexists.
  change (loadCallbacks (install (esbuildDebugIdInjectionPlugin gds) o)) with
    [({| hook_filter := MatchAny; hook_namespace := Some proxyNamespace |},
      debugId_onLoad_proxy);
     ({| hook_filter := MatchLiteral "_sentry-debug-id-injection-stub";
         hook_namespace := Some stubNamespace |}, debugId_onLoad_stub gds)].
  cbn [run_onLoad]. unfold hook_matches. cbn [hook_filter hook_namespace filter_test].
  rewrite Hns. cbn [andb]. rewrite String.eqb_refl.
  unfold bind, debugId_onLoad_proxy. rewrite Hdata. reflexivity.
Qed.

Lemma proxy_load_without_plugin_data_throws_witness :
  exists e,
    run_onLoad
      (loadCallbacks (install (esbuildDebugIdInjectionPlugin sample_snippet)
                        sample_build_options))
      {| load_path := "src/a.js";
         load_namespace := "sentry-debug-id-proxy";
         load_suffix := EmptyString;
         load_pluginData := None |} sample_world =
    (Throw e, sample_world).
Proof.
  apply proxy_load_without_plugin_data_throws; reflexivity.
Defined.

(** ** The release stub through the hooks *)

(** X10. Every path that contains the name of the release stub resolves,
    through the hooks of the release injection, to itself (whatever the kind
    and the importer), and loads, in any namespace, to the injection code the
    plugin was created with; no uuid is drawn. So the path that setup pushed
    onto [inject] loads to the injection code, provided [path.resolve] keeps
    the name in it. *)
Theorem release_stub_resolves_and_loads_to_injection_code pr injectionCode o
    (args : OnResolveArgs) (namespace suffix : string) (data : option PluginData)
    (w : World) :
  includes "_sentry-release-injection-stub" (args_path args) = true ->
  (exists r,
      run_onResolve
        (resolveCallbacks (install (esbuildReleaseInjectionPlugin pr injectionCode) o))
        args w = (Normal (Some r), w) /\
      res_path r = Some (args_path args) /\
      res_namespace r = None /\
      res_suffix r = None) /\
  (exists code,
      run_onLoad
        (loadCallbacks (install (esbuildReleaseInjectionPlugin pr injectionCode) o))
        {| load_path := args_path args; load_namespace := namespace;
           load_suffix := suffix; load_pluginData := data |} w =
        (Normal (Some code), w) /\
      out_contents code = Some injectionCode).
Proof.
  intro Hpath. split.
  - eexists. split.
    { change (resolveCallbacks (install (esbuildReleaseInjectionPlugin pr injectionCode) o))
        with [({| hook_filter := MatchLiteral "_sentry-release-injection-stub";
                  hook_namespace := None |}, releaseInjection_onResolve)].
      cbn [run_onResolve]. unfold hook_matches.
      cbn [hook_filter hook_namespace filter_test].
      rewrite Hpath. reflexivity. }
    repeat split.
  - eexists. split.
    { change (loadCallbacks (install (esbuildReleaseInjectionPlugin pr injectionCode) o))
        with [({| hook_filter := MatchLiteral "_sentry-release-injection-stub";
                  hook_namespace := None |}, releaseInjection_onLoad injectionCode)].
      cbn [run_onLoad]. unfold hook_matches.
      cbn [hook_filter hook_namespace filter_test load_path].
      rewrite Hpath. reflexivity. }
    reflexivity.
Qed.

Lemma release_stub_resolves_and_loads_to_injection_code_witness :
  exists code,
    run_onLoad
      (loadCallbacks
         (install (esbuildReleaseInjectionPlugin sample_path_resolve "release=1")
            sample_build_options))
      {| load_path := "/work/_sentry-release-injection-stub"; load_namespace := "file";
         load_suffix := EmptyString; load_pluginData := None |} sample_world =
      (Normal (Some code), sample_world) /\
    out_contents code = Some "release=1"%string.
Proof.
  exact (proj2 (release_stub_resolves_and_loads_to_injection_code
                  sample_path_resolve "release=1" sample_build_options
                  release_stub_args "file" EmptyString None sample_world eq_refl)).
Defined.

(** ** The plugins side by side *)

Lemma hooks_release_then_debugId pr code gds o :
  resolveCallbacks
    (install_all [esbuildReleaseInjectionPlugin pr code; esbuildDebugIdInjectionPlugin gds] o) =
    ({| hook_filter := MatchLiteral "_sentry-release-injection-stub";
        hook_namespace := None |}, releaseInjection_onResolve)
    :: resolveCallbacks (install (esbuildDebugIdInjectionPlugin gds) o) /\
  loadCallbacks
    (install_all [esbuildReleaseInjectionPlugin pr code; esbuildDebugIdInjectionPlugin gds] o) =
    ({| hook_filter := MatchLiteral "_sentry-release-injection-stub";
        hook_namespace := None |}, releaseInjection_onLoad code)
    :: loadCallbacks (install (esbuildDebugIdInjectionPlugin gds) o).
Proof. split; reflexivity. Qed.

(** X12. Which hook answers depends on the order of the plugins. An
    entry-point resolution of a path that contains the name of the release
    stub is answered by the release injection when that plugin was set up
    first, and is redirected to the debug-id proxy, the release hook never
    being asked, when the debug-id plugin was set up first. *)
Theorem setup_order_decides_who_resolves_the_release_stub pr injectionCode gds o
    (args : OnResolveArgs) (w : World) :
  args_kind args = entry_point ->
  includes "_sentry-release-injection-stub" (args_path args) = true ->
  run_onResolve
    (resolveCallbacks
       (install_all [esbuildReleaseInjectionPlugin pr injectionCode;
                     esbuildDebugIdInjectionPlugin gds] o)) args w =
    releaseInjection_onResolve args w /\
  run_onResolve
    (resolveCallbacks
       (install_all [esbuildDebugIdInjectionPlugin gds;
                     esbuildReleaseInjectionPlugin pr injectionCode] o)) args w =
    (Normal (Some {| res_pluginName := Some debugId_pluginName;
                     res_path := Some (args_path args);
                     res_namespace := Some proxyNamespace;
                     res_suffix := None;
                     res_sideEffects := None;
                     res_pluginData :=
                       Some {| originalPath := args_path args;
                               originalResolveDir := args_resolveDir args |} |}),
     w).
Proof.
  intros Hkind Hpath. split.
  - destruct (hooks_release_then_debugId pr injectionCode gds o) as [-> _].
    cbn [run_onResolve]. unfold hook_matches. cbn [hook_filter hook_namespace filter_test].
    rewrite Hpath. reflexivity.
  - cbn. unfold debugId_onResolve_entry, bind, ret. rewrite Hkind. reflexivity.
Qed.

Lemma setup_order_decides_who_resolves_the_release_stub_witness :
  run_onResolve
    (resolveCallbacks
       (install_all [esbuildReleaseInjectionPlugin sample_path_resolve "release=1";
                     esbuildDebugIdInjectionPlugin sample_snippet] sample_build_options))
    release_stub_args sample_world =
  releaseInjection_onResolve release_stub_args sample_world.
Proof.
  exact (proj1 (setup_order_decides_who_resolves_the_release_stub
                  sample_path_resolve "release=1" sample_snippet sample_build_options
                  release_stub_args sample_world eq_refl eq_refl)).
Defined.

(** X13. The changes the plugins make to the build options do not depend on
    the order of setup: the debug-id plugin changes no option, and the upload
    plugin and the release injection, in either order, leave [metafile] true
    and [inject] extended by the stub path, the other options as they were. *)
Theorem option_changes_commute pr injectionCode gds upload (b : PluginBuild) :
  options_after (esbuildDebugIdInjectionPlugin gds) b = initialOptions b /\
  options_after (esbuildReleaseInjectionPlugin pr injectionCode)
    (esbuild_setup (esbuildDebugIdUploadPlugin upload) b) =
  options_after (esbuildDebugIdUploadPlugin upload)
    (esbuild_setup (esbuildReleaseInjectionPlugin pr injectionCode) b) /\
  options_after (esbuildDebugIdUploadPlugin upload)
    (esbuild_setup (esbuildReleaseInjectionPlugin pr injectionCode) b) =
    {| entryPoints := entryPoints (initialOptions b);
       bundle := bundle (initialOptions b);
       outdir := outdir (initialOptions b);
       inject :=
         Some (match inject (initialOptions b) with
               | Some existing => existing
               | None => []
               end ++ [pr "_sentry-release-injection-stub"%string]);
       metafile := Some true |}.
Proof. repeat split. Qed.

(** * Facts about the bundles of the integration tests *)

Import IntegrationTests.

Lemma string_app_empty_r (s : string) : (s ++ EmptyString)%string = s.
Proof. induction s as [| c s IH]; simpl; [reflexivity | now rewrite IH]. Qed.

Lemma to_uint_nonnil n : Nat.to_uint n <> Decimal.Nil.
Proof.
  rewrite <- (DecimalNat.Unsigned.of_to n) at 1.
  rewrite DecimalNat.Unsigned.to_of. apply DecimalFacts.unorm_nonnil.
Qed.

Lemma parse_digits_numeral d acc rest :
  (forall c rest', rest = String c rest' -> digit_value 10 c = None) ->
  parse_digits 10 (NilEmpty.string_of_uint d ++ rest)%string acc true =
  Some (Nat.of_uint_acc d acc).
Proof.
  intro Hrest. revert acc.
  induction d; intro acc; cbn [NilEmpty.string_of_uint String.append Nat.of_uint_acc];
    try (cbn [parse_digits];
         match goal with
         | |- context [digit_value 10 ?c] =>
             let v := eval vm_compute in (digit_value 10 c) in
             change (digit_value 10 c) with v
         end;
         cbv iota; rewrite IHd, Nat.tail_mul_spec; f_equal; f_equal; lia).
  destruct rest as [| c rest']; [reflexivity |].
  cbn [parse_digits]. now rewrite (Hrest c rest' eq_refl).
Qed.

Lemma before_first_dot_numeral d rest :
  before_first_dot (NilEmpty.string_of_uint d ++ String "."%char rest)%string =
  NilEmpty.string_of_uint d.
Proof.
  induction d; cbn [NilEmpty.string_of_uint String.append before_first_dot];
    try reflexivity; cbn [Ascii.eqb Bool.eqb]; now rewrite IHd.
Qed.

Lemma parseInt_numeral d :
  d <> Decimal.Nil ->
  parseInt (NilEmpty.string_of_uint d) =
  match parse_digits 10 (NilEmpty.string_of_uint d) 0 true with
  | Some n =>
      if (Z.of_nat n <=? two_to_53)%Z then SafeInteger (Z.of_nat n) else BeyondSafe false
  | None => NotANumber
  end.
Proof.
  intro Hnonnil.
  destruct d as [| d | d | d | d | d | d | d | d | d | d];
    [now contradiction Hnonnil | ..]; destruct d; reflexivity.
Qed.

Lemma parseInt_decimal n :
  parseInt (decimal n) =
  if (Z.of_nat n <=? two_to_53)%Z then SafeInteger (Z.of_nat n) else BeyondSafe false.
Proof.
  unfold decimal. rewrite parseInt_numeral by apply to_uint_nonnil.
  pose proof (parse_digits_numeral (Nat.to_uint n) 0 EmptyString) as H.
  rewrite string_app_empty_r in H. rewrite H by discriminate.
  change (Nat.of_uint_acc (Nat.to_uint n) 0) with (Nat.of_uint (Nat.to_uint n)).
  now rewrite DecimalNat.Unsigned.of_to.
Qed.

Lemma major_version_is_read_back_lemma (prefix : ascii) (major : nat) (rest : string) :
  prefix <> "."%char ->
  nodejsMajorversion (String prefix (decimal major ++ String "."%char rest)) =
    decimal major /\
  parseInt (nodejsMajorversion (String prefix (decimal major ++ String "."%char rest))) =
    if (Z.of_nat major <=? two_to_53)%Z
    then SafeInteger (Z.of_nat major)
    else BeyondSafe false.
Proof.
  intro Hprefix.
  assert (Hmajor : nodejsMajorversion
                     (String prefix (decimal major ++ String "."%char rest)) =
                   decimal major).
  { unfold nodejsMajorversion, decimal. cbn [before_first_dot].
    destruct (Ascii.eqb_spec prefix "."%char) as [-> | _]; [now contradiction Hprefix |].
    cbn [slice_1]. apply before_first_dot_numeral. }
  split; [exact Hmajor |]. rewrite Hmajor. apply parseInt_decimal.
Qed.

(** X14. The major version is read back from the version text: for a version
    made of one character (the "v"), the decimal numeral of [major], a dot
    and anything after it, [nodejsMajorversion] is that numeral, and
    [parseInt] of it is [major] itself when [major] is at most 2^53, the
    range in which JavaScript numbers are exact, and a positive number beyond
    that range otherwise. The first character is dropped unread. *)
Theorem major_version_is_read_back (prefix : ascii) (major : nat) (rest : string) :
  prefix <> "."%char ->
  nodejsMajorversion (String prefix (decimal major ++ String "."%char rest)) =
    decimal major /\
  parseInt (nodejsMajorversion (String prefix (decimal major ++ String "."%char rest))) =
    (if (Z.of_nat major <=? two_to_53)%Z
     then SafeInteger (Z.of_nat major)
     else BeyondSafe false) /\
  ((Z.of_nat major <= two_to_53)%Z ->
   parseInt (nodejsMajorversion (String prefix (decimal major ++ String "."%char rest))) =
     SafeInteger (Z.of_nat major)).
Proof.
  intro Hprefix.
  destruct (major_version_is_read_back_lemma prefix major rest Hprefix) as [Hname Hvalue].
  split; [exact Hname |]. split; [exact Hvalue |].
  intro Hsafe. rewrite Hvalue.
  destruct (Z.leb_spec (Z.of_nat major) two_to_53) as [_ | Hbig]; [reflexivity | lia].
Qed.

Lemma major_version_is_read_back_witness :
  nodejsMajorversion "v18.12.1" = "18"%string /\
  parseInt (nodejsMajorversion "v18.12.1") = SafeInteger 18.
Proof.
  split.
  - exact (proj1 (major_version_is_read_back "v"%char 18 "12.1"%string
                    ltac:(discriminate))).
  - exact (proj1 (proj2 (major_version_is_read_back "v"%char 18 "12.1"%string
                           ltac:(discriminate)))).
Defined.

(** X15. For such a version text, [createCjsBundles] starts webpack 4
    exactly when the major version is below 18, after vite, rollup and
    esbuild and before webpack 5, which are started for every version; every
    bundler gets the same entry points and plugin options and writes to
    [path.join] of the output folder and its own name. *)
Theorem webpack4_only_below_node_18 (Entrypoints PluginOptions : Type)
    (path_join : string -> string -> string) (prefix : ascii) (major : nat)
    (rest : string) (entrypoints : Entrypoints) (outFolder : string)
    (options : PluginOptions) :
  prefix <> "."%char ->
  createCjsBundles path_join (String prefix (decimal major ++ String "."%char rest))
    entrypoints outFolder options =
  map (fun bundler_dir =>
         {| launch_bundler := fst bundler_dir;
            launch_outDir := path_join outFolder (snd bundler_dir);
            launch_input := entrypoints;
            launch_pluginOptions := options |})
    ([(ViteBundler, "vite"%string); (RollupBundler, "rollup"%string);
      (EsbuildBundler, "esbuild"%string)]
     ++ (if (major <? 18)%nat then [(Webpack4Bundler, "webpack4"%string)] else [])
     ++ [(Webpack5Bundler, "webpack5"%string)]).
Proof.
  intro Hprefix. unfold createCjsBundles.
  destruct (major_version_is_read_back_lemma prefix major rest Hprefix) as [_ ->].
  unfold js_lt_18, two_to_53.
  destruct (Z.leb_spec (Z.of_nat major) 9007199254740992) as [Hsafe | Hbig];
    destruct (Nat.ltb_spec major 18) as [Hlt | Hge];
    try destruct (Z.ltb_spec (Z.of_nat major) 18) as [Hlt' | Hge'];
    try lia; reflexivity.
Qed.

Lemma webpack4_only_below_node_18_witness :
  map (@launch_bundler (list string) unit)
    (createCjsBundles sample_path_join "v16.20.2" ["index.js"] "out" tt) =
  [ViteBundler; RollupBundler; EsbuildBundler; Webpack4Bundler; Webpack5Bundler].
Proof.
  exact (f_equal (map (@launch_bundler (list string) unit))
           (webpack4_only_below_node_18 (list string) unit sample_path_join
              "v"%char 16 "20.2" ["index.js"] "out" tt ltac:(discriminate))).
Defined.

(** ** A step reads its own options only *)

(** X16. A step depends on its own options only: two option records that
    agree on the flag or option object of a step (and, when source maps are
    uploaded, on [include] and [dist]) make the step behave the same on every
    trace, whatever the other options are. Creating the release reads no
    option at all. *)
Theorem step_reads_only_its_own_options s o1 o2 ctx releaseName tr0 :
  same_options_for s o1 o2 ->
  run_step s o1 ctx releaseName tr0 = run_step s o2 ctx releaseName tr0.
Proof.
  intro Hsame.
  assert (Hrq : step_request s o1 releaseName = step_request s o2 releaseName).
  { destruct s; simpl in Hsame |- *.
    - reflexivity.
    - now rewrite Hsame.
    - destruct Hsame as [Hflag Hrest]. rewrite <- Hflag.
      destruct (options_uploadSourceMaps o1); [| reflexivity].
      destruct (Hrest eq_refl) as [-> ->]. reflexivity.
    - now rewrite Hsame.
    - now rewrite Hsame.
    - now rewrite Hsame. }
  rewrite !run_step_frame, !step_completion_table, !step_events_table.
  unfold table_row. rewrite Hrq. reflexivity.
Qed.

Lemma step_reads_only_its_own_options_witness :
  run_step Clean all_on service_up "v1" [] = run_step Clean only_clean service_up "v1" [].
Proof.
  exact (step_reads_only_its_own_options Clean all_on only_clean service_up "v1" []
           eq_refl).
Defined.

(** ** What the proxy module imports *)




